(** * A local HTTP file server: path resolution, listings, streaming, speed test

    Shallow embedding of [fileserver.go] (package [main]) and of the parts of
    the Go standard library it calls ([path/filepath], [strings], [fmt],
    [io], [net/http], [os]), on a Unix host.

    Layout: the first half holds the definitions (library models, then the
    handlers), the second half the lemmas and theorems about them. *)

From Stdlib Require Import ZArith List String Ascii Bool Lia QArith.
From Stdlib Require Import DecimalString DecimalZ DecimalPos.
From Stdlib.Strings Require Import Byte.
From stdpp Require Import base gmap strings list.

Open Scope string_scope.
Open Scope list_scope.
Open Scope Z_scope.

(* ===================================================================== *)
(** * Part I: definitions *)
(* ===================================================================== *)

(** ** [path/filepath] on Unix, and the bits of [strings] used on paths *)

Module Path.

(** [filepath.Separator] and [os.IsPathSeparator] on Unix. *)
Definition Separator : ascii := "/"%char.

Definition IsPathSeparator (c : ascii) : bool := Ascii.eqb c Separator.

(** The path elements between separators, empty ones included:
    [strings.Split(path, "/")]. *)
Fixpoint split (path : string) : list string :=
  match path with
  | EmptyString => [""]
  | String c rest =>
      if IsPathSeparator c then "" :: split rest
      else match split rest with
           | e :: es => String c e :: es
           | [] => [String c ""]
           end
  end.

(** [strings.Join(elems, "/")]. *)
Definition join_sep (elems : list string) : string := String.concat "/" elems.

(** Whether [path] starts with a separator ([rooted] in [Clean]). *)
Definition is_rooted (path : string) : bool :=
  match path with
  | String c _ => IsPathSeparator c
  | EmptyString => false
  end.

(** [Clean] keeps the elements written so far in a buffer and an index
    [dotdot] below which a [..] may not back up (the leading slash or a
    leading run of [..]).  Here the buffer is the stack of elements written,
    innermost first; [out.w > dotdot] holds exactly when the stack is not
    empty and its top is a real element. *)
Definition can_backtrack (stack : list string) : bool :=
  match stack with
  | top :: _ => negb (String.eqb top "..")
  | [] => false
  end.

(** One turn of the loop of [Clean], on the element [elem]. *)
Definition clean_step (rooted : bool) (stack : list string) (elem : string)
  : list string :=
  if String.eqb elem "" then stack            (* empty path element *)
  else if String.eqb elem "." then stack      (* . element *)
  else if String.eqb elem ".." then           (* .. element *)
    if can_backtrack stack then tl stack
    else if negb rooted then ".." :: stack
    else stack
  else elem :: stack.                         (* real path element *)

Definition clean_elems (rooted : bool) (elems : list string) : list string :=
  rev (fold_left (clean_step rooted) elems []).

(** The text of a cleaned path from its rootedness and elements; the
    empty string is turned into ["."]. *)
Definition render (rooted : bool) (elems : list string) : string :=
  let out := (if rooted then "/" else "") +:+ join_sep elems in
  if String.eqb out "" then "." else out.

(** [filepath.Clean]: the shortest path name equivalent to [path] by purely
    lexical processing.  (1) multiple separators become one, (2) each [.]
    element goes, (3) each inner [..] goes with the non-[..] element before
    it, (4) [..] elements that begin a rooted path go. *)
Definition Clean (path : string) : string :=
  if String.eqb path "" then "."
  else
    let rooted := is_rooted path in
    render rooted (clean_elems rooted (split path)).

(** [filepath.Join]: empty elements before the first non-empty one are
    ignored, the rest is joined with separators and cleaned; the result is
    empty when every element is. *)
Fixpoint Join (elem : list string) : string :=
  match elem with
  | [] => ""
  | e :: rest =>
      if String.eqb e "" then Join rest else Clean (join_sep elem)
  end.

Fixpoint has_separator (s : string) : bool :=
  match s with
  | EmptyString => false
  | String c rest => IsPathSeparator c || has_separator rest
  end.

(** [filepath.Ext]: the suffix beginning at the final dot in the final
    element of [path]; empty if there is no dot. *)
Fixpoint Ext (path : string) : string :=
  match path with
  | EmptyString => ""
  | String c rest =>
      match Ext rest with
      | EmptyString =>
          if Ascii.eqb c "."%char && negb (has_separator rest)
          then path else ""
      | e => e
      end
  end.

(** Removes the trailing separators of [path]. *)
Fixpoint trim_trailing (path : string) : string :=
  match path with
  | EmptyString => ""
  | String c rest =>
      match trim_trailing rest with
      | EmptyString => if IsPathSeparator c then "" else String c ""
      | r => String c r
      end
  end.

(** [filepath.Base]: the last element of [path], trailing separators
    removed first; ["."] for the empty path, ["/"] for a path of separators
    only. *)
Definition Base (path : string) : string :=
  if String.eqb path "" then "."
  else
    let p := trim_trailing path in
    if String.eqb p "" then "/"
    else List.last (split p) "".

(** [strings.ReplaceAll(path, string(sep), "/")]. *)
Fixpoint replace_sep (sep : ascii) (path : string) : string :=
  match path with
  | EmptyString => ""
  | String c rest =>
      String (if Ascii.eqb c sep then "/"%char else c) (replace_sep sep rest)
  end.

(** [filepath.ToSlash]: the separators of the host replaced by slashes; on
    a host whose separator is the slash the path is returned as it is. *)
Definition ToSlash (path : string) : string :=
  if Ascii.eqb Separator "/"%char then path else replace_sep Separator path.

(** [strings.ToLower] on a byte: the letters [A] to [Z] are mapped to
    [a] to [z].  Bytes outside ASCII are left alone: the names handled here
    are taken to be ASCII. *)
Definition lower_ascii (c : ascii) : ascii :=
  let n := nat_of_ascii c in
  if (65 <=? n)%nat && (n <=? 90)%nat then ascii_of_nat (n + 32) else c.

Fixpoint ToLower (s : string) : string :=
  match s with
  | EmptyString => ""
  | String c rest => String (lower_ascii c) (ToLower rest)
  end.

End Path.

(** ** Outcomes of a run, [fmt] and the numbers *)

(** A Go call returns, panics, or (in the model only) runs out of the fuel
    that bounds its loops. *)
Inductive result (A : Type) : Type :=
| Ok (a : A)
| Panic
| Fuel.
Arguments Ok {A} a.
Arguments Panic {A}.
Arguments Fuel {A}.

#[global] Instance result_ret : MRet result := @Ok.

#[global] Instance result_bind : MBind result :=
  fun (A B : Type) (k : A -> result B) (m : result A) =>
    match m with
    | Ok a => k a
    | Panic => Panic
    | Fuel => Fuel
    end.

(** The errors the handlers can meet. *)
Inductive error : Type :=
| EOF                 (* io.EOF *)
| ErrShortWrite       (* io.ErrShortWrite *)
| ErrContentLength    (* http.ErrContentLength *)
| ErrClosed           (* write on a connection the client has left *)
| ErrIO               (* read error of the device *)
| ErrPermission       (* open refused *)
| ErrNotDir           (* directory operation on a file, and the converse *)
| ErrNotExist         (* no such file or directory *)
| ErrInvalidWrite     (* io: a writer that reports an impossible count *)
| SkipDir             (* filepath.SkipDir *)
| SkipAll.            (* filepath.SkipAll *)

Definition error_eqb (a b : error) : bool :=
  match a, b with
  | EOF, EOF | ErrShortWrite, ErrShortWrite
  | ErrContentLength, ErrContentLength | ErrClosed, ErrClosed
  | ErrIO, ErrIO | ErrPermission, ErrPermission | ErrNotDir, ErrNotDir
  | ErrNotExist, ErrNotExist | ErrInvalidWrite, ErrInvalidWrite
  | SkipDir, SkipDir | SkipAll, SkipAll => true
  | _, _ => false
  end.

Definition is_some {A : Type} (o : option A) : bool :=
  match o with Some _ => true | None => false end.

(** [int64]: values are kept in [Z], arithmetic wraps around. *)
Definition min_int64 : Z := - 2 ^ 63.
Definition max_int64 : Z := 2 ^ 63 - 1.
Definition in_int64 (z : Z) : Prop := min_int64 <= z <= max_int64.
Definition in_int64b (z : Z) : bool := (min_int64 <=? z) && (z <=? max_int64).
Definition wrap64 (z : Z) : Z := (z + 2 ^ 63) mod 2 ^ 64 - 2 ^ 63.

Module Fmt.

(** [%d] of an integer. *)
Definition sprint_d (n : Z) : string := NilZero.string_of_int (Z.to_int n).

(** [strconv.ParseInt(s, 10, 64)] on the output of [%d]: an optional minus
    sign and decimal digits, within [int64]. *)
Definition ParseInt (s : string) : option Z :=
  match NilZero.int_of_string s with
  | Some d => let v := Z.of_int d in if in_int64b v then Some v else None
  | None => None
  end.

(** The integer nearest to [num / den] ([den > 0]), ties to the even one. *)
Definition round_half_even (num den : Z) : Z :=
  let q := num / den in
  let r := num mod den in
  if 2 * r <? den then q
  else if den <? 2 * r then q + 1
  else if Z.even q then q else q + 1.

(** [float64(n)] for [0 <= n < 2^63]: the integer kept to 53 significant
    bits, rounded to nearest, ties to even.  The value is again an
    integer. *)
Definition float64_of_int (n : Z) : Z :=
  let k := Z.log2 n - 52 in
  if k <=? 0 then n else round_half_even n (2 ^ k) * 2 ^ k.

Definition digit (d : Z) : ascii := ascii_of_nat (48 + Z.to_nat d).

(** [%.1f] of the non-negative number [num / den]: the decimal expansion
    is cut after one digit, rounded to nearest, ties to even, as
    [strconv] does on the exact value of the float. *)
Definition sprint_f1 (num den : Z) : string :=
  let t := round_half_even (10 * num) den in
  sprint_d (t / 10) +:+ "." +:+ String (digit (t mod 10)) "".

(** [s[i]] with its bounds check. *)
Definition index (s : string) (i : Z) : result ascii :=
  if i <? 0 then Panic
  else match String.get (Z.to_nat i) s with
       | Some c => Ok c
       | None => Panic
       end.

(** The bytes of a text. *)
Definition bytes (s : string) : list Byte.byte := list_byte_of_string s.

End Fmt.

(** ** [human]: sizes for people *)

Definition unit : Z := 1024.

(** The loop [for n/div >= unit { div *= unit; exp++ }]; integer division
    truncates, a zero divisor panics, [div] is an [int64]. *)
Fixpoint human_loop (fuel : nat) (n div exp : Z) : result (Z * Z) :=
  match fuel with
  | O => Fuel
  | S fuel' =>
      if div =? 0 then Panic
      else if unit <=? Z.quot n div
      then human_loop fuel' n (wrap64 (div * unit)) (exp + 1)
      else Ok (div, exp)
  end.

(** [float64(n)/float64(div)] is exact: [div] is a power of two, so the
    quotient of the two floats is the number [float64_of_int n / div]. *)
Definition human (n : Z) : result string :=
  if n <? unit then Ok (Fmt.sprint_d n +:+ " B")
  else
    '(div, exp) ← human_loop 64 n unit 0;
    c ← Fmt.index "KMGTPE" exp;
    Ok (Fmt.sprint_f1 (Fmt.float64_of_int n) (Fmt.float64_of_int div)
        +:+ " " +:+ String c "B").

(** ** [net/http]: the response writer *)

Module Http.

(** The state behind an [http.ResponseWriter].  [header] is the map the
    handler edits through [w.Header()].  The first [Write] or [WriteHeader]
    commits the status line and a copy of the map taken at that moment
    ([sent]); later changes of [header] have no effect on the response.
    [contentLength] is the declared length ([-1]: none); a [Write] that
    would pass it is refused with [ErrContentLength].  [link] is what the
    connection still carries before the client is gone ([None]: it never
    leaves). *)
Record ResponseWriter : Type := mkResponse {
  header : gmap string string;
  wroteHeader : bool;
  status : Z;
  sent : gmap string string;
  contentLength : Z;
  written : Z;
  body : list Byte.byte;
  link : option Z
}.

Definition fresh (l : option Z) : ResponseWriter :=
  mkResponse ∅ false 0 ∅ (-1) 0 [] l.

Definition with_header (h : gmap string string) (w : ResponseWriter)
  : ResponseWriter :=
  mkResponse h (wroteHeader w) (status w) (sent w) (contentLength w)
             (written w) (body w) (link w).

(** [w.Header().Set(key, value)] and [w.Header().Del(key)]. *)
Definition Set_ (key value : string) (w : ResponseWriter) : ResponseWriter :=
  with_header (<[key := value]> (header w)) w.

Definition Del (key : string) (w : ResponseWriter) : ResponseWriter :=
  with_header (delete key (header w)) w.

Definition declared_length (h : gmap string string) : Z :=
  match h !! "Content-Length" with
  | Some cl =>
      match Fmt.ParseInt cl with
      | Some v => if 0 <=? v then v else -1
      | None => -1
      end
  | None => -1
  end.

(** [w.WriteHeader(code)]: a second call is ignored. *)
Definition WriteHeader (code : Z) (w : ResponseWriter) : ResponseWriter :=
  if wroteHeader w then w
  else mkResponse (header w) true code (header w)
                  (declared_length (header w)) (written w) (body w) (link w).

(** [w.Write(data)]: commits the header with status 200 if that is still
    to do, counts the bytes, refuses them when they pass the declared
    length, and hands them to the connection, which takes them all or
    breaks after the part it still carries. *)
Definition Write (data : list Byte.byte) (w : ResponseWriter)
  : (Z * option error) * ResponseWriter :=
  let w1 := WriteHeader 200 w in
  let n := Z.of_nat (length data) in
  if n =? 0 then ((0, None), w1)
  else
    let count := written w1 + n in
    if negb (contentLength w1 =? -1) && (contentLength w1 <? count) then
      ((0, Some ErrContentLength),
       mkResponse (header w1) true (status w1) (sent w1) (contentLength w1)
                  count (body w1) (link w1))
    else
      match link w1 with
      | None =>
          ((n, None),
           mkResponse (header w1) true (status w1) (sent w1)
                      (contentLength w1) count (body w1 ++ data) None)
      | Some room =>
          if n <=? room then
            ((n, None),
             mkResponse (header w1) true (status w1) (sent w1)
                        (contentLength w1) count (body w1 ++ data)
                        (Some (room - n)))
          else
            ((Z.max 0 room, Some ErrClosed),
             mkResponse (header w1) true (status w1) (sent w1)
                        (contentLength w1) count
                        (body w1 ++ take (Z.to_nat room) data) (Some 0))
      end.

(** [fmt.Fprint(w, text)] and the like: the result of the write is dropped. *)
Definition Fprint (text : string) (w : ResponseWriter) : ResponseWriter :=
  snd (Write (Fmt.bytes text) w).

(** [http.Error(w, msg, code)]. *)
Definition Error (msg : string) (code : Z) (w : ResponseWriter)
  : ResponseWriter :=
  let w := Del "Content-Length" w in
  let w := Set_ "Content-Type" "text/plain; charset=utf-8" w in
  let w := Set_ "X-Content-Type-Options" "nosniff" w in
  let w := WriteHeader code w in
  Fprint (msg +:+ String "010"%char "") w.

(** [http.NotFound(w, r)]. *)
Definition NotFound (w : ResponseWriter) : ResponseWriter :=
  Error "404 page not found" 404 w.

(** What the server does when the handler returns: a header not yet
    committed goes out with status 200. *)
Definition finish (w : ResponseWriter) : ResponseWriter := WriteHeader 200 w.

Definition StatusNotFound : Z := 404.
Definition StatusInternalServerError : Z := 500.

End Http.

(** ** [os]: a file tree, its files and directories *)

Module FS.

(** A regular file with its bytes, or a directory with its entries in the
    order the file system enumerates them.  [open_ok] tells whether
    [os.Open] succeeds; [fault] is the offset at which the device starts
    to fail reads; [read_ok] whether the entries of a directory that could
    be opened can be read; [inode_size] the size [Stat] reports for the
    directory itself.  Symbolic links are not modelled. *)
#[warnings="-register-all"]
Inductive node : Type :=
| File (open_ok : bool) (fault : option nat) (data : list Byte.byte)
| Dir (open_ok read_ok : bool) (inode_size : Z) (entries : list (string * node)).

(** [os.FileInfo]. *)
Record FileInfo : Type := mkInfo {
  Name : string;
  Size : Z;
  IsDir : bool
}.

Definition info_of (name : string) (n : node) : FileInfo :=
  match n with
  | File _ _ data => mkInfo name (Z.of_nat (length data)) false
  | Dir _ _ sz _ => mkInfo name sz true
  end.


(** An open [*os.File]. *)
Inductive handle : Type :=
| FileHandle (data : list Byte.byte) (fault : option nat) (offset : nat)
| DirHandle (read_ok : bool) (entries : list FileInfo).

Definition offset_of (f : handle) : Z :=
  match f with
  | FileHandle _ _ off => Z.of_nat off
  | DirHandle _ _ => 0
  end.

(** The file system: the tree below [/] and the working directory (an
    absolute path) that relative names start from. *)
Record filesystem : Type := mkFS {
  cwd : string;
  root : node
}.

Fixpoint assoc (name : string) (entries : list (string * node)) : option node :=
  match entries with
  | [] => None
  | (k, n) :: rest => if String.eqb k name then Some n else assoc name rest
  end.

Fixpoint lookup (n : node) (elems : list string) : option node :=
  match elems with
  | [] => Some n
  | e :: rest =>
      match n with
      | Dir _ _ _ entries =>
          match assoc e entries with
          | Some child => lookup child rest
          | None => None
          end
      | File _ _ _ => None
      end
  end.

(** The elements of a cleaned path. *)
Definition elements (path : string) : list string :=
  List.filter (fun e => negb (String.eqb e "")) (Path.split path).

Definition absolute (fs : filesystem) (path : string) : string :=
  if Path.is_rooted path then Path.Clean path
  else Path.Clean (cwd fs +:+ "/" +:+ path).

Definition find_node (fs : filesystem) (path : string) : option node :=
  if String.eqb path "" then None
  else lookup (root fs) (elements (absolute fs path)).

(** [os.Stat(path)]; [None] stands for its error. *)
Definition Stat (fs : filesystem) (path : string) : option FileInfo :=
  match find_node fs path with
  | Some n => Some (info_of (Path.Base path) n)
  | None => None
  end.

(** [os.Open(path)]. *)
Definition Open (fs : filesystem) (path : string) : option handle :=
  match find_node fs path with
  | Some (File true fault data) => Some (FileHandle data fault 0)
  | Some (Dir true read_ok _ entries) =>
      Some (DirHandle read_ok (map (fun e => info_of (fst e) (snd e)) entries))
  | _ => None
  end.

(** [f.Readdir(-1)]: every entry of the directory, or an error. *)
Definition Readdir (f : handle) : option (list FileInfo) :=
  match f with
  | DirHandle true entries => Some entries
  | _ => None
  end.

(** The bytes of a file that can be read: those before the fault. *)
Definition readable (data : list Byte.byte) (fault : option nat) : list Byte.byte :=
  match fault with
  | Some p => take p data
  | None => data
  end.

(** [f.Read(buf[:k])] on a regular file: as many bytes as the buffer takes
    and the file still has, at least one unless [k] is zero; at the end of
    the file no byte and [io.EOF]; from the faulty offset on, no byte and
    an error. *)
Definition Read (f : handle) (k : Z) : (list Byte.byte * option error) * handle :=
  match f with
  | DirHandle _ _ => (([], Some ErrNotDir), f)
  | FileHandle data fault off =>
      if k <=? 0 then (([], None), f)
      else
        let good := readable data fault in
        let chunk := take (Z.to_nat k) (drop off good) in
        match chunk with
        | [] => (([], Some (if is_some fault && (length good <=? off)%nat
                                 && (length good <? length data)%nat
                            then ErrIO else EOF)), f)
        | _ => ((chunk, None), FileHandle data fault (off + length chunk))
        end
  end.

(** [filepath.Walk] visits the names of a directory in lexical order:
    [readDirNames] sorts them. *)
Fixpoint insert_entry (e : string * node) (l : list (string * node))
  : list (string * node) :=
  match l with
  | [] => [e]
  | x :: rest =>
      if String.leb (fst e) (fst x) then e :: l else x :: insert_entry e rest
  end.

Definition sort_entries (l : list (string * node)) : list (string * node) :=
  fold_right insert_entry [] l.

(** The tree with every directory in the order [Walk] visits it. *)
Fixpoint sort_tree (n : node) : node :=
  match n with
  | File _ _ _ => n
  | Dir o r sz entries =>
      Dir o r sz (sort_entries (map (fun e => (fst e, sort_tree (snd e))) entries))
  end.

(** A [filepath.WalkFunc] whose closure holds a state of type [S]. *)
Definition WalkFunc (S : Type) : Type :=
  string -> FileInfo -> option error -> S -> option error * S.

(** [walk] of [path/filepath], on a tree whose directories are sorted:
    the function is called on the directory, with the error of reading its
    names if there is one, then on each entry in turn; an error other than
    [SkipDir] from below stops the walk. *)
Fixpoint walk {S : Type} (fn : WalkFunc S) (path : string) (info : FileInfo)
  (n : node) (st : S) : option error * S :=
  match n with
  | File _ _ _ => fn path info None st
  | Dir open_ok read_ok _ entries =>
      let err := if open_ok && read_ok then None else Some ErrPermission in
      let '(err1, st1) := fn path info err st in
      if is_some err || is_some err1 then (err1, st1)
      else
        (fix each (es : list (string * node)) (st : S) : option error * S :=
           match es with
           | [] => (None, st)
           | e :: rest =>
               let filename := Path.Join [path; fst e] in
               let fileInfo := info_of (fst e) (snd e) in
               let '(r, st') := walk fn filename fileInfo (snd e) st in
               match r with
               | Some x =>
                   if negb (IsDir fileInfo) || negb (error_eqb x SkipDir)
                   then (Some x, st')
                   else each rest st'
               | None => each rest st'
               end
           end) entries st1
  end.

(** [filepath.Walk(root, fn)]. *)
Definition Walk {S : Type} (fs : filesystem) (root_path : string)
  (fn : WalkFunc S) (st : S) : option error * S :=
  let '(err, st') :=
    match find_node fs root_path with
    | None => fn root_path (mkInfo "" 0 false) (Some ErrNotExist) st
    | Some n =>
        walk fn root_path (info_of (Path.Base root_path) n) (sort_tree n) st
    end in
  match err with
  | Some x =>
      if error_eqb x SkipDir || error_eqb x SkipAll then (None, st')
      else (err, st')
  | None => (None, st')
  end.

End FS.

(** ** [io]: copying *)

(** [1<<20], the length of the buffers the handlers allocate. *)
Definition buf_len : Z := Z.shiftl 1 20.

(** The loop of [io.CopyBuffer(w, f, buf)] with a buffer of [buf_len]
    bytes: read a chunk, write it, until the source is at its end or
    either side fails.  The count of bytes written comes back with the
    error, which is [nil] at the end of the file. *)
Fixpoint CopyBuffer (fuel : nat) (w : Http.ResponseWriter) (f : FS.handle)
  (written : Z) : result ((Z * option error) * Http.ResponseWriter * FS.handle) :=
  match fuel with
  | O => Fuel
  | S fuel' =>
      let '((chunk, er), f') := FS.Read f buf_len in
      let nr := Z.of_nat (length chunk) in
      let after_read (written' : Z) (w' : Http.ResponseWriter) :=
        match er with
        | Some e =>
            Ok ((written', if error_eqb e EOF then None else Some e), w', f')
        | None => CopyBuffer fuel' w' f' written'
        end in
      if 0 <? nr then
        let '((nw0, ew0), w') := Http.Write chunk w in
        let '(nw, ew) :=
          if (nw0 <? 0) || (nr <? nw0)
          then (0, if is_some ew0 then ew0 else Some ErrInvalidWrite)
          else (nw0, ew0) in
        let written' := wrap64 (written + nw) in
        if is_some ew then Ok ((written', ew), w', f')
        else if negb (nr =? nw) then Ok ((written', Some ErrShortWrite), w', f')
        else after_read written' w'
      else after_read written w
  end.

(** ** The server *)

(** The flags [-dir] and [-speedbytes], fixed at startup. *)
Record Config : Type := mkConfig {
  dir : string;
  speedBytes : Z
}.

(** What the handlers read of an [*http.Request]: [r.URL.Path],
    [r.URL.Query().Get("file")] and [r.Header.Get("Range")]. *)
Record Request : Type := mkRequest {
  url_path : string;
  query_file : string;
  range : string
}.

(** A line on [os.Stdout].  The transfer line
    ["%s transferred %s in %.2fs (%.2f MB/s)"] is kept by its four
    arguments. *)
Inductive log_line : Type :=
| TransferLine (name size : string) (elapsed rate : Q)
| TextLine (text : string).

(** What a handler acts on: the response and the operator's log. *)
Record world : Type := mkWorld {
  resp : Http.ResponseWriter;
  stdout : list log_line
}.

(** The object the speed test reports. *)
Record SpeedResult : Type := mkResult {
  res_file : string;
  bytes_sent : Z;
  mb_per_s : Q;
  duration_s : Q
}.

(** [d.Seconds()] of a [time.Duration] of [d] nanoseconds.  Seconds and
    rates are [float64] in the source and exact rationals here; a duration
    is zero seconds exactly when it is zero nanoseconds, in both. *)
Definition Seconds (d : Z) : Q := d # 1000000000.

(** [if elapsed == 0 { elapsed = 0.000001 }]. *)
Definition nonzero_elapsed (elapsed : Q) : Q :=
  if Qeq_bool elapsed 0 then 1 # 1000000 else elapsed.

(** [float64(n)/(1024*1024)/elapsed]. *)
Definition mb_rate (n : Z) (elapsed : Q) : Q :=
  (inject_Z n / inject_Z (1024 * 1024) / elapsed)%Q.

Definition dquote : string := String (ascii_of_nat 34) "".
Definition newline : string := String (ascii_of_nat 10) "".

(** The item of the listing for one entry. *)
Definition list_item (href name size : string) : string :=
  "<li><a href=" +:+ dquote +:+ href +:+ dquote +:+ ">" +:+ name
  +:+ "</a> " +:+ size +:+ "</li>".

Definition list_head (upath : string) : string :=
  "<html><head><meta charset='utf-8'><title>" +:+ upath
  +:+ "</title></head><body><h1>" +:+ upath +:+ "</h1><ul>".

Definition list_foot : string := "</ul></body></html>".

(** The link of an entry: [filepath.ToSlash(filepath.Join(upath, name))]. *)
Definition entry_href (upath name : string) : string :=
  Path.ToSlash (Path.Join [upath; name]).

(** The loop over the entries of a directory in [indexHandler]. *)
Fixpoint list_entries (upath : string) (entries : list FS.FileInfo)
  (w : Http.ResponseWriter) : result Http.ResponseWriter :=
  match entries with
  | [] => Ok w
  | e :: rest =>
      let name := FS.Name e in
      let href := entry_href upath name in
      size ← human (FS.Size e);
      list_entries upath rest (Http.Fprint (list_item href name size) w)
  end.

(** The media extensions of the speed test, and the function it hands to
    [filepath.Walk]: directories and unreadable names are passed over, the
    first media file is kept in [found] and stops the walk with [io.EOF]. *)
Definition is_media_ext (ext : string) : bool :=
  String.eqb ext ".mkv" || String.eqb ext ".mp4" || String.eqb ext ".ts"
  || String.eqb ext ".m2ts" || String.eqb ext ".iso".

Definition find_media : FS.WalkFunc string :=
  fun p info err found =>
    if is_some err || FS.IsDir info then (None, found)
    else
      let ext := Path.ToLower (Path.Ext p) in
      if is_media_ext ext then (Some EOF, p) else (None, found).

(** The choice of the file to stream: the [file] parameter when it names a
    file below the root, else the first media file of the walk; the empty
    string when there is none. *)
Definition select_target (cfg : Config) (fs : FS.filesystem) (fileParam : string)
  : string :=
  let target :=
    if negb (String.eqb fileParam "") then
      let candidate := Path.Join [dir cfg; Path.Clean ("/" +:+ fileParam)] in
      match FS.Stat fs candidate with
      | Some fi => if negb (FS.IsDir fi) then candidate else ""
      | None => ""
      end
    else "" in
  if String.eqb target "" then snd (FS.Walk fs (dir cfg) find_media "")
  else target.

(** [size := speedBytes; if size <= 0 { size = 50 << 20 }]. *)
Definition budget (cfg : Config) : Z :=
  let size := speedBytes cfg in
  if size <=? 0 then Z.shiftl 50 20 else size.

(** The loop of the speed test: chunks of at most [buf_len] bytes and at
    most what remains of the budget; it stops when the budget is used up,
    when a write fails or is short, and after a read that reports an
    error. *)
Fixpoint stream_loop (fuel : nat) (f : FS.handle) (w : Http.ResponseWriter)
  (remaining total : Z) : result (Z * Http.ResponseWriter * FS.handle) :=
  match fuel with
  | O => Fuel
  | S fuel' =>
      if 0 <? remaining then
        let toRead := buf_len in
        let toRead := if remaining <? toRead then remaining else toRead in
        let '((chunk, err), f') := FS.Read f toRead in
        let nr := Z.of_nat (length chunk) in
        if 0 <? nr then
          let '((nw, errw), w') := Http.Write chunk w in
          if is_some errw || negb (nw =? nr) then Ok (total, w', f')
          else
            let total' := wrap64 (total + nw) in
            let remaining' := wrap64 (remaining - nw) in
            if is_some err then Ok (total', w', f')
            else stream_loop fuel' f' w' remaining' total'
        else
          if is_some err then Ok (total, w, f')
          else stream_loop fuel' f' w remaining total
      else Ok (total, w, f)
  end.

(** The report of a full transfer, lines 108 to 112: the elapsed time, made
    non-zero, and the line for the log. *)
Definition transfer_report (name : string) (n elapsed_ns : Z) : result log_line :=
  let elapsed := Seconds elapsed_ns in
  let elapsed := nonzero_elapsed elapsed in
  size ← human n;
  Ok (TransferLine name size elapsed (mb_rate n elapsed)).

(** The report of the speed test, lines 178 to 187. *)
Definition speed_report (target : string) (total elapsed_ns : Z) : SpeedResult :=
  let elapsed := Seconds elapsed_ns in
  let elapsed := nonzero_elapsed elapsed in
  mkResult (Path.Base target) total (mb_rate total elapsed) elapsed.

Section Server.

(** The capabilities taken from the library as they are:
    [mime.TypeByExtension], [http.ServeContent] (which answers range
    requests and writes nothing to the log) and [json.Marshal] on the
    report. *)
Variable TypeByExtension : string -> string.
Variable ServeContent :
  Http.ResponseWriter -> Request -> string -> FS.handle -> Http.ResponseWriter.
Variable Marshal : SpeedResult -> string.

Variable cfg : Config.
Variable fs : FS.filesystem.

(** [serveFileFast(w, r, path, fi)]; [elapsed_ns] is what
    [time.Since(start)] measures. *)
Definition serveFileFast (fuel : nat) (elapsed_ns : Z) (r : Request)
  (path : string) (fi : FS.FileInfo) (st : world) : result world :=
  let w := resp st in
  if negb (String.eqb (range r) "") then
    match FS.Open fs path with
    | None =>
        Ok (mkWorld (Http.Error "cannot open file" Http.StatusInternalServerError w)
                    (stdout st))
    | Some f => Ok (mkWorld (ServeContent w r (FS.Name fi) f) (stdout st))
    end
  else
    match FS.Open fs path with
    | None =>
        Ok (mkWorld (Http.Error "cannot open file" Http.StatusInternalServerError w)
                    (stdout st))
    | Some f =>
        let typ := TypeByExtension (Path.ToLower (Path.Ext path)) in
        let typ := if String.eqb typ "" then "application/octet-stream" else typ in
        let w := Http.Set_ "Content-Type" typ w in
        let w := Http.Set_ "Content-Length" (Fmt.sprint_d (FS.Size fi)) w in
        let w := Http.Set_ "Accept-Ranges" "bytes" w in
        '((n, err), w, _) ← CopyBuffer fuel w f 0;
        if is_some err then Ok (mkWorld w (stdout st))
        else
          line ← transfer_report (FS.Name fi) n elapsed_ns;
          Ok (mkWorld w (stdout st ++ [line]))
    end.

(** [indexHandler(w, r)]. *)
Definition indexHandler (fuel : nat) (elapsed_ns : Z) (r : Request) (st : world)
  : result world :=
  let w := resp st in
  let upath := Path.Clean (url_path r) in
  let full := Path.Join [dir cfg; upath] in
  match FS.Stat fs full with
  | None => Ok (mkWorld (Http.NotFound w) (stdout st))
  | Some fi =>
      if FS.IsDir fi then
        match FS.Open fs full with
        | None =>
            Ok (mkWorld (Http.Error "cannot open dir" Http.StatusInternalServerError w)
                        (stdout st))
        | Some f =>
            match FS.Readdir f with
            | None =>
                Ok (mkWorld (Http.Error "cannot read dir"
                                        Http.StatusInternalServerError w)
                            (stdout st))
            | Some entries =>
                let w := Http.Set_ "Content-Type" "text/html; charset=utf-8" w in
                let w := Http.Fprint (list_head upath) w in
                w ← list_entries upath entries w;
                Ok (mkWorld (Http.Fprint list_foot w) (stdout st))
            end
        end
      else serveFileFast fuel elapsed_ns r full fi st
  end.

(** [speedTestHandler(w, r)]. *)
Definition speedTestHandler (fuel : nat) (elapsed_ns : Z) (r : Request)
  (st : world) : result world :=
  let w := resp st in
  let target := select_target cfg fs (query_file r) in
  if String.eqb target "" then
    Ok (mkWorld (Http.Error "no media file found for speedtest"
                            Http.StatusNotFound w) (stdout st))
  else
    match FS.Open fs target with
    | None =>
        Ok (mkWorld (Http.Error "cannot open file" Http.StatusInternalServerError w)
                    (stdout st))
    | Some f =>
        let size := budget cfg in
        let w := Http.Set_ "Content-Type" "application/octet-stream" w in
        let w := Http.Set_ "Content-Length" (Fmt.sprint_d size) w in
        let w := Http.Set_ "Accept-Ranges" "bytes" w in
        '(total, w, _) ← stream_loop fuel f w size 0;
        let res := speed_report target total elapsed_ns in
        let js := Marshal res in
        let out := stdout st ++ [TextLine (js +:+ newline)] in
        let w := Http.Set_ "Content-Type" "application/json" w in
        Ok (mkWorld (Http.Fprint js w) out)
    end.

End Server.

(** ** Sample capabilities and a sample tree, for closed instances *)

Definition sample_mime (ext : string) : string :=
  if String.eqb ext ".mp4" then "video/mp4"
  else if String.eqb ext ".txt" then "text/plain; charset=utf-8"
  else "".

(** Serves the whole file, as [http.ServeContent] does when it sets the
    range aside. *)
Definition sample_serve_content (w : Http.ResponseWriter) (r : Request)
  (name : string) (f : FS.handle) : Http.ResponseWriter :=
  match f with
  | FS.FileHandle data _ _ => snd (Http.Write data w)
  | FS.DirHandle _ _ => w
  end.

Definition show_Q (q : Q) : string :=
  Fmt.sprint_d (Qnum q) +:+ "/" +:+ Fmt.sprint_d (Z.pos (Qden q)).

(** The report with its keys in the order [json.Marshal] gives a map, the
    two floats written as fractions. *)
Definition sample_marshal (res : SpeedResult) : string :=
  "{" +:+ dquote +:+ "bytes_sent" +:+ dquote +:+ ":" +:+ Fmt.sprint_d (bytes_sent res)
  +:+ "," +:+ dquote +:+ "duration_s" +:+ dquote +:+ ":" +:+ show_Q (duration_s res)
  +:+ "," +:+ dquote +:+ "file" +:+ dquote +:+ ":" +:+ dquote +:+ res_file res +:+ dquote
  +:+ "," +:+ dquote +:+ "mb_per_s" +:+ dquote +:+ ":" +:+ show_Q (mb_per_s res) +:+ "}".

(** [/srv/share] holds [notes.txt], [clip.mp4], a directory [films] with
    [Movie.MKV] and [poster.jpg], and [locked.bin], which cannot be
    opened; [/etc/passwd] lies outside of it. *)
Definition sample_share : FS.node :=
  FS.Dir true true 4096
    [("notes.txt", FS.File true None (Fmt.bytes "hello"));
     ("films", FS.Dir true true 4096
        [("poster.jpg", FS.File true None (Fmt.bytes "jpeg"));
         ("Movie.MKV", FS.File true None (Fmt.bytes "0123456789"))]);
     ("clip.mp4", FS.File true None (Fmt.bytes "abcdefgh"));
     ("locked.bin", FS.File false None (Fmt.bytes "xyz"))].

Definition sample_fs : FS.filesystem :=
  FS.mkFS "/srv"
    (FS.Dir true true 4096
       [("etc", FS.Dir true true 4096
           [("passwd", FS.File true None (Fmt.bytes "root:x:0:0"))]);
        ("srv", FS.Dir true true 4096 [("share", sample_share)])]).

Definition sample_cfg (n : Z) : Config := mkConfig "/srv/share" n.

(** What [Stat] tells of [clip.mp4], and the entries of [films]. *)
Definition clip_info : FS.FileInfo := FS.mkInfo "clip.mp4" 8 false.


Definition start (l : option Z) : world := mkWorld (Http.fresh l) [].

(** ** The properties, in the words of the specification *)

(** The file system path the index handler looks up for the request path
    [P]: [P] cleaned, then joined onto the serving root. *)
Definition resolve (root P : string) : string :=
  Path.Join [root; Path.Clean P].





(** ** Predicates the proofs use *)

(** An element without separator; one that [Clean] keeps; one that names a
    file or a directory. *)
Definition sepfree (e : string) : Prop := Path.has_separator e = false.
Definition good (e : string) : Prop := e <> "" /\ e <> "." /\ sepfree e.
Definition proper (e : string) : Prop := good e /\ e <> "..".


(** The length the response is held to: the one committed with the header,
    or the one the header map declares while nothing is committed. *)
Definition declared (w : Http.ResponseWriter) : Z :=
  if Http.wroteHeader w then Http.contentLength w
  else Http.declared_length (Http.header w).

(** The header the response carries: the one committed with the first
    write, or the map as it stands while nothing is committed. *)
Definition on_wire (w : Http.ResponseWriter) : gmap string string :=
  if Http.wroteHeader w then Http.sent w else Http.header w.

(** The writer takes [room] more bytes without an error: the client stays,
    and the declared length is not passed. *)
Definition healthy (room : Z) (w : Http.ResponseWriter) : Prop :=
  Http.link w = None
  /\ (declared w = -1 \/ Http.written w + room <= declared w).

(** Fuel that is enough for a loop that reads [f] to its end. *)
Definition enough (fuel : nat) (f : FS.handle) : Prop :=
  match f with
  | FS.FileHandle data _ off => (length data - off < fuel)%nat
  | FS.DirHandle _ _ => (0 < fuel)%nat
  end.

(** The response as the speed test has prepared it before it streams:
    lines 153 to 155. *)
Definition speed_header (cfg : Config) (w : Http.ResponseWriter)
  : Http.ResponseWriter :=
  Http.Set_ "Accept-Ranges" "bytes"
    (Http.Set_ "Content-Length" (Fmt.sprint_d (budget cfg))
       (Http.Set_ "Content-Type" "application/octet-stream" w)).

(** The type a full transfer declares, lines 95 to 98, and the response as
    [serveFileFast] has prepared it before it copies, lines 99 to 101. *)
Definition content_type (TypeByExtension : string -> string) (path : string)
  : string :=
  let typ := TypeByExtension (Path.ToLower (Path.Ext path)) in
  if String.eqb typ "" then "application/octet-stream" else typ.

Definition file_header (TypeByExtension : string -> string) (path : string)
  (fi : FS.FileInfo) (w : Http.ResponseWriter) : Http.ResponseWriter :=
  Http.Set_ "Accept-Ranges" "bytes"
    (Http.Set_ "Content-Length" (Fmt.sprint_d (FS.Size fi))
       (Http.Set_ "Content-Type" (content_type TypeByExtension path) w)).




(** A stack of [Clean] in its settled form: real elements on top of a run
    of [..]. *)
Inductive settled : list string -> Prop :=
| settled_dots (k : nat) : settled (repeat ".." k)
| settled_push (e : string) (st : list string) :
    proper e -> settled st -> settled (e :: st).

(** ** The choice of the speed test's file, in the words of the specification *)








(* ===================================================================== *)
(** * Part II: lemmas and theorems *)
(* ===================================================================== *)

Arguments FS.Read : simpl never.
Arguments Http.Write : simpl never.
Arguments Http.WriteHeader : simpl never.
Arguments wrap64 : simpl never.
Arguments human : simpl never.

(** ** The library models against the examples of their documentation *)

Example Clean_empty : Path.Clean "" = ".".
Proof. reflexivity. Qed.
Example Clean_tests :
  map Path.Clean
    ["abc"; "."; ".."; "../../abc"; "/"; "abc/"; "../"; "/abc/";
     "abc//def//ghi"; "///abc"; "abc/./def"; "/./abc/def"; "abc/.";
     "abc/def/ghi/../jkl"; "abc/def/../.."; "/abc/def/../..";
     "abc/def/../../.."; "/abc/def/../../..";
     "abc/def/../../../ghi/jkl/../../../mno"; "/../abc";
     "abc/../../././../def"]
  = ["abc"; "."; ".."; "../../abc"; "/"; "abc"; ".."; "/abc";
     "abc/def/ghi"; "/abc"; "abc/def"; "/abc/def"; "abc";
     "abc/def/jkl"; "."; "/";
     ".."; "/";
     "../../mno"; "/abc";
     "../../def"].
Proof. vm_compute. reflexivity. Qed.
Example Join_tests :
  map Path.Join [["a"; "b"]; ["a"; ""]; [""; "b"]; ["/"; "a"]; ["a/"; "b"];
                 [""; ""]; ["/srv"; "/x/y"]; ["."; "/etc"]; ["/srv"; "."]]
  = ["a/b"; "a"; "b"; "/a"; "a/b"; ""; "/srv/x/y"; "etc"; "/srv"].
Proof. vm_compute. reflexivity. Qed.
Example Ext_tests :
  map Path.Ext ["path.go"; "path.pb.go"; "a.dir/b"; "a.dir/b.go"; "a.dir/"; "/srv/Movie.MKV"]
  = [".go"; ".go"; ""; ".go"; ""; ".MKV"].
Proof. vm_compute. reflexivity. Qed.
Example Base_tests :
  map Path.Base [""; "."; "/."; "/"; "////"; "x/"; "abc"; "abc/def"; "a/b/.x"; "a/b/c."; "a/b/c.x"]
  = ["."; "."; "."; "/"; "/"; "x"; "abc"; "def"; ".x"; "c."; "c.x"].
Proof. vm_compute. reflexivity. Qed.
Example human_tests :
  map human [0; 1023; 1024; 1280; 1536; 1048575; 1048576; max_int64]
  = map Ok ["0 B"; "1023 B"; "1.0 KB"; "1.2 KB"; "1.5 KB"; "1024.0 KB";
            "1.0 MB"; "8.0 EB"].
Proof. vm_compute. reflexivity. Qed.

(** ** Paths *)

Module PathFacts.
Import Path.

Lemma split_nonempty (s : string) : split s <> [].
Proof.
  destruct s as [|c s]; simpl; [discriminate|].
  destruct (IsPathSeparator c); [discriminate|].
  destruct (split s); discriminate.
Qed.

Lemma split_app_sep (a b : string) :
  split (a +:+ "/" +:+ b) = split a ++ split b.
Proof.
  induction a as [|c a IH]; simpl.
  - reflexivity.
  - destruct (IsPathSeparator c).
    + now rewrite IH.
    + rewrite IH. destruct (split a) as [|e es] eqn:E.
      * now apply split_nonempty in E.
      * reflexivity.
Qed.

Lemma split_sepfree (s : string) : Forall sepfree (split s).
Proof.
  induction s as [|c s IH]; simpl.
  - constructor; [reflexivity|constructor].
  - destruct (IsPathSeparator c) eqn:Ec.
    + constructor; [reflexivity|exact IH].
    + destruct (split s) as [|e es].
      * constructor; [|constructor]. unfold sepfree. simpl. now rewrite Ec.
      * inversion IH as [|? ? He Hes]; subst. constructor; [|exact Hes].
        unfold sepfree in *. simpl. now rewrite Ec, He.
Qed.

Lemma split_sepfree_id (e : string) : sepfree e -> split e = [e].
Proof.
  unfold sepfree. induction e as [|c e IH]; simpl; intros H.
  - reflexivity.
  - apply orb_false_iff in H as [Hc He]. rewrite Hc, (IH He). reflexivity.
Qed.

Lemma split_join (l : list string) :
  l <> [] -> Forall sepfree l -> split (join_sep l) = l.
Proof.
  unfold join_sep.
  induction l as [|e l IH]; intros Hne Hall; [congruence|].
  inversion Hall as [|? ? He Hl]; subst.
  destruct l as [|e' l'].
  - simpl. now apply split_sepfree_id.
  - change (String.concat "/" (e :: e' :: l'))
      with (e +:+ "/" +:+ String.concat "/" (e' :: l')).
    rewrite split_app_sep, (split_sepfree_id e He), IH; [reflexivity|discriminate|exact Hl].
Qed.

Lemma good_dotdot : good "..".
Proof. repeat split; discriminate. Qed.


Lemma good_all_sepfree (l : list string) : Forall good l -> Forall sepfree l.
Proof. induction 1 as [|e l [_ [_ H]] _ IH]; constructor; assumption. Qed.


Lemma clean_step_skip_empty (r : bool) (st : list string) :
  clean_step r st "" = st.
Proof. reflexivity. Qed.

Lemma clean_step_skip_dot (r : bool) (st : list string) :
  clean_step r st "." = st.
Proof. reflexivity. Qed.

Lemma clean_step_push (r : bool) (st : list string) (e : string) :
  proper e -> clean_step r st e = e :: st.
Proof.
  intros [[H1 [H2 _]] H3]. unfold clean_step.
  apply String.eqb_neq in H1, H2, H3. now rewrite H1, H2, H3.
Qed.

Lemma clean_step_good (r : bool) (st : list string) (e : string) :
  Forall good st -> sepfree e -> Forall good (clean_step r st e).
Proof.
  intros Hst He. unfold clean_step.
  destruct (String.eqb_spec e ""); [exact Hst|].
  destruct (String.eqb_spec e "."); [exact Hst|].
  destruct (String.eqb_spec e "..").
  - destruct (can_backtrack st).
    + destruct st; [exact Hst|]. now inversion Hst.
    + destruct r; simpl; [exact Hst|]. constructor; [apply good_dotdot|exact Hst].
  - constructor; [|exact Hst]. repeat split; assumption.
Qed.

Lemma clean_step_proper (st : list string) (e : string) :
  Forall proper st -> sepfree e -> Forall proper (clean_step true st e).
Proof.
  intros Hst He. unfold clean_step.
  destruct (String.eqb_spec e ""); [exact Hst|].
  destruct (String.eqb_spec e "."); [exact Hst|].
  destruct (String.eqb_spec e "..").
  - destruct (can_backtrack st); simpl; [|exact Hst].
    destruct st; [exact Hst|]. now inversion Hst.
  - constructor; [|exact Hst]. repeat split; assumption.
Qed.

Lemma fold_clean_good (r : bool) (es st : list string) :
  Forall sepfree es -> Forall good st ->
  Forall good (fold_left (clean_step r) es st).
Proof.
  revert st. induction es as [|e es IH]; intros st Hes Hst; simpl; [exact Hst|].
  inversion Hes; subst. apply IH; [assumption|]. now apply clean_step_good.
Qed.

Lemma fold_clean_proper (es st : list string) :
  Forall sepfree es -> Forall proper st ->
  Forall proper (fold_left (clean_step true) es st).
Proof.
  revert st. induction es as [|e es IH]; intros st Hes Hst; simpl; [exact Hst|].
  inversion Hes; subst. apply IH; [assumption|]. now apply clean_step_proper.
Qed.

Lemma clean_elems_good (r : bool) (s : string) :
  Forall good (clean_elems r (split s)).
Proof.
  unfold clean_elems. apply Forall_rev.
  apply fold_clean_good; [apply split_sepfree|constructor].
Qed.





Lemma join_cons (e e' : string) (l : list string) :
  join_sep (e :: e' :: l) = e +:+ "/" +:+ join_sep (e' :: l).
Proof. reflexivity. Qed.

Lemma append_nonempty (a b : string) : a <> "" -> a +:+ b <> "".
Proof. destruct a; [congruence|discriminate]. Qed.

Lemma join_nonempty (e : string) (l : list string) :
  e <> "" -> join_sep (e :: l) <> "".
Proof.
  intros H. destruct l; [exact H|]. rewrite join_cons. now apply append_nonempty.
Qed.

Lemma is_rooted_append (a b : string) :
  a <> "" -> is_rooted (a +:+ b) = is_rooted a.
Proof. destruct a; [congruence|reflexivity]. Qed.

Lemma good_not_rooted (e : string) : good e -> is_rooted e = false.
Proof.
  intros [H1 [_ H3]]. destruct e as [|c e]; [congruence|].
  unfold sepfree in H3. simpl in *. now apply orb_false_iff in H3 as [-> _].
Qed.

Lemma render_rooted (l : list string) : render true l = "/" +:+ join_sep l.
Proof. reflexivity. Qed.

Lemma render_relative (e : string) (l : list string) :
  e <> "" -> render false (e :: l) = join_sep (e :: l).
Proof.
  intros H. unfold render.
  change ("" +:+ join_sep (e :: l)) with (join_sep (e :: l)).
  apply (join_nonempty e l) in H. apply String.eqb_neq in H. now rewrite H.
Qed.


Lemma is_rooted_render (r : bool) (l : list string) :
  Forall good l -> is_rooted (render r l) = r.
Proof.
  intros H. destruct r; [reflexivity|].
  destruct l as [|e l]; [reflexivity|].
  inversion H as [|? ? He Hl]; subst.
  rewrite render_relative by apply He.
  destruct l as [|e' l']; [now apply good_not_rooted|].
  rewrite join_cons, is_rooted_append by apply He. now apply good_not_rooted.
Qed.

Lemma Clean_nonempty_path (p : string) :
  p <> "" -> Clean p = render (is_rooted p) (clean_elems (is_rooted p) (split p)).
Proof. intros H. unfold Clean. apply String.eqb_neq in H. now rewrite H. Qed.

Lemma render_nonempty (r : bool) (l : list string) : render r l <> "".
Proof.
  unfold render. destruct (String.eqb_spec ((if r then "/" else "") +:+ join_sep l) "");
    [discriminate|assumption].
Qed.

Lemma Clean_nonempty (p : string) : Clean p <> "".
Proof.
  unfold Clean. destruct (String.eqb_spec p ""); [discriminate|apply render_nonempty].
Qed.


Lemma is_rooted_Clean (p : string) : is_rooted (Clean p) = is_rooted p.
Proof.
  destruct (String.eqb_spec p "") as [->|H]; [reflexivity|].
  rewrite (Clean_nonempty_path p H). apply is_rooted_render, clean_elems_good.
Qed.











End PathFacts.

(** ** Integers *)

Lemma wrap64_id (z : Z) : in_int64 z -> wrap64 z = z.
Proof.
  unfold in_int64, min_int64, max_int64, wrap64. intros H.
  rewrite Z.mod_small; lia.
Qed.

Lemma wrap64_in (z : Z) : in_int64 (wrap64 z).
Proof.
  unfold in_int64, min_int64, max_int64, wrap64.
  pose proof (Z.mod_pos_bound (z + 2 ^ 63) (2 ^ 64)). lia.
Qed.

Lemma in_int64b_true (z : Z) : in_int64 z -> in_int64b z = true.
Proof. unfold in_int64, in_int64b. intros H. apply andb_true_iff. lia. Qed.

Lemma buf_len_value : buf_len = 1048576.
Proof. reflexivity. Qed.

(** ** The response writer *)

Module HttpFacts.
Import Http.

Lemma WriteHeader_header (code : Z) (w : ResponseWriter) :
  header (WriteHeader code w) = header w.
Proof. unfold WriteHeader. now destruct (wroteHeader w). Qed.

Lemma WriteHeader_wrote (code : Z) (w : ResponseWriter) :
  wroteHeader (WriteHeader code w) = true.
Proof. unfold WriteHeader. now destruct (wroteHeader w) eqn:E. Qed.

Lemma WriteHeader_sent (code : Z) (w : ResponseWriter) :
  sent (WriteHeader code w) = if wroteHeader w then sent w else header w.
Proof. unfold WriteHeader. now destruct (wroteHeader w). Qed.

Lemma WriteHeader_status (code : Z) (w : ResponseWriter) :
  status (WriteHeader code w) = if wroteHeader w then status w else code.
Proof. unfold WriteHeader. now destruct (wroteHeader w). Qed.

Lemma WriteHeader_declared (code : Z) (w : ResponseWriter) :
  contentLength (WriteHeader code w) = declared w.
Proof. unfold WriteHeader, declared. now destruct (wroteHeader w). Qed.

Lemma WriteHeader_body (code : Z) (w : ResponseWriter) :
  body (WriteHeader code w) = body w.
Proof. unfold WriteHeader. now destruct (wroteHeader w). Qed.

Lemma WriteHeader_written (code : Z) (w : ResponseWriter) :
  written (WriteHeader code w) = written w.
Proof. unfold WriteHeader. now destruct (wroteHeader w). Qed.

Lemma WriteHeader_link (code : Z) (w : ResponseWriter) :
  link (WriteHeader code w) = link w.
Proof. unfold WriteHeader. now destruct (wroteHeader w). Qed.

Lemma WriteHeader_committed (code : Z) (w : ResponseWriter) :
  wroteHeader w = true -> WriteHeader code w = w.
Proof. unfold WriteHeader. now intros ->. Qed.

(** What every [Write] leaves as it was or commits. *)
Lemma Write_frame (data : list Byte.byte) (w : ResponseWriter) :
  let w' := snd (Write data w) in
  header w' = header w
  /\ wroteHeader w' = true
  /\ sent w' = (if wroteHeader w then sent w else header w)
  /\ status w' = (if wroteHeader w then status w else 200)
  /\ contentLength w' = declared w.
Proof.
  unfold Write.
  pose proof (WriteHeader_header 200 w) as Hh.
  pose proof (WriteHeader_wrote 200 w) as Hw.
  pose proof (WriteHeader_sent 200 w) as Hs.
  pose proof (WriteHeader_status 200 w) as Ht.
  pose proof (WriteHeader_declared 200 w) as Hd.
  destruct (Z.of_nat (length data) =? 0); [simpl; tauto|].
  destruct (negb (contentLength (WriteHeader 200 w) =? -1)
            && (contentLength (WriteHeader 200 w)
                <? written (WriteHeader 200 w) + Z.of_nat (length data)));
    [simpl; tauto|].
  destruct (link (WriteHeader 200 w)) as [room|]; [|simpl; tauto].
  destruct (Z.of_nat (length data) <=? room); simpl; tauto.
Qed.

Lemma Write_on_wire (data : list Byte.byte) (w : ResponseWriter) :
  on_wire (snd (Write data w)) = on_wire w.
Proof.
  destruct (Write_frame data w) as [_ [Hw [Hs _]]].
  unfold on_wire. now rewrite Hw, Hs.
Qed.

Lemma finish_sent (w : ResponseWriter) : sent (finish w) = on_wire w.
Proof. apply WriteHeader_sent. Qed.

Lemma on_wire_committed (w : ResponseWriter) (key value : string) :
  wroteHeader w = true -> on_wire (Set_ key value w) = on_wire w.
Proof. unfold on_wire, Set_, with_header. simpl. now intros ->. Qed.

Lemma on_wire_pending (w : ResponseWriter) (key value : string) :
  wroteHeader w = false ->
  on_wire (Set_ key value w) = <[key := value]> (on_wire w).
Proof. unfold on_wire, Set_, with_header. simpl. now intros ->. Qed.

(** A healthy writer takes the data whole. *)
Lemma Write_healthy (data : list Byte.byte) (w : ResponseWriter) (room : Z) :
  healthy room w -> data <> [] -> Z.of_nat (length data) <= room ->
  exists w',
    Write data w = ((Z.of_nat (length data), None), w')
    /\ body w' = body w ++ data
    /\ written w' = written w + Z.of_nat (length data)
    /\ healthy (room - Z.of_nat (length data)) w'
    /\ wroteHeader w' = true
    /\ declared w' = declared w.
Proof.
  intros [Hlink Hcl] Hne Hlen. unfold Write.
  assert (0 < Z.of_nat (length data)) as Hpos by (destruct data; [congruence|simpl; lia]).
  destruct (Z.eqb_spec (Z.of_nat (length data)) 0) as [E|_]; [lia|].
  rewrite WriteHeader_declared, WriteHeader_written, WriteHeader_link, Hlink.
  assert (negb (declared w =? -1)
          && (declared w <? written w + Z.of_nat (length data)) = false) as ->.
  { destruct Hcl as [->|Hcl]; [reflexivity|].
    apply andb_false_iff. right. apply Z.ltb_ge. lia. }
  eexists. split; [reflexivity|]. simpl.
  rewrite WriteHeader_body. split; [reflexivity|]. split; [reflexivity|].
  split; [|split; reflexivity].
  split; [reflexivity|]. unfold declared in *. simpl.
  destruct Hcl as [Hcl|Hcl]; [now left|right; lia].
Qed.

(** A write that reports no error has taken the data whole. *)
Lemma Write_no_error (data : list Byte.byte) (w w' : ResponseWriter) (nw : Z) :
  Write data w = ((nw, None), w') ->
  nw = Z.of_nat (length data) /\ body w' = body w ++ data.
Proof.
  unfold Write.
  destruct (Z.eqb_spec (Z.of_nat (length data)) 0) as [E|_].
  - intros [= <- <-]. destruct data; [|simpl in E; lia].
    rewrite WriteHeader_body, app_nil_r. now split.
  - destruct (negb (contentLength (WriteHeader 200 w) =? -1)
              && (contentLength (WriteHeader 200 w)
                  <? written (WriteHeader 200 w) + Z.of_nat (length data)));
      [discriminate|].
    destruct (link (WriteHeader 200 w)) as [room|].
    + destruct (Z.of_nat (length data) <=? room); [|discriminate].
      intros [= <- <-]. simpl. now rewrite WriteHeader_body.
    + intros [= <- <-]. simpl. now rewrite WriteHeader_body.
Qed.

(** A client that has left before the data is through makes the write
    fail. *)
Lemma Write_broken (data : list Byte.byte) (w : ResponseWriter) (room : Z) :
  link w = Some room -> 0 <= room < Z.of_nat (length data) ->
  exists nw e w', Write data w = ((nw, Some e), w').
Proof.
  intros Hlink Hroom. unfold Write.
  destruct (Z.eqb_spec (Z.of_nat (length data)) 0) as [E|_].
  - lia.
  - destruct (negb (contentLength (WriteHeader 200 w) =? -1)
              && (contentLength (WriteHeader 200 w)
                  <? written (WriteHeader 200 w) + Z.of_nat (length data)));
      [now eexists _, _, _|].
    rewrite WriteHeader_link, Hlink.
    destruct (Z.leb_spec (Z.of_nat (length data)) room); [lia|].
    now eexists _, _, _.
Qed.

(** A write that would pass the declared length leaves the body as it is. *)
Lemma Write_over_length (data : list Byte.byte) (w : ResponseWriter) :
  data <> [] -> declared w <> -1 ->
  declared w < written w + Z.of_nat (length data) ->
  Write data w
  = ((0, Some ErrContentLength),
     mkResponse (header w) true (if wroteHeader w then status w else 200)
                (on_wire w) (declared w)
                (written w + Z.of_nat (length data)) (body w) (link w)).
Proof.
  intros Hne Hd Hlt. unfold Write.
  assert (0 < Z.of_nat (length data)) by (destruct data; [congruence|simpl; lia]).
  destruct (Z.eqb_spec (Z.of_nat (length data)) 0) as [?|_]; [lia|].
  rewrite WriteHeader_declared, WriteHeader_written, WriteHeader_header,
    WriteHeader_status, WriteHeader_sent, WriteHeader_body, WriteHeader_link.
  destruct (Z.eqb_spec (declared w) (-1)) as [?|_]; [congruence|].
  destruct (Z.ltb_spec (declared w) (written w + Z.of_nat (length data))); [|lia].
  reflexivity.
Qed.

Lemma Write_link_kept (data : list Byte.byte) (w w' : ResponseWriter)
  (nw room : Z) :
  link w = Some room -> data <> [] -> Write data w = ((nw, None), w') ->
  link w' = Some (room - Z.of_nat (length data))
  /\ Z.of_nat (length data) <= room.
Proof.
  intros Hlink Hne. unfold Write.
  destruct (Z.eqb_spec (Z.of_nat (length data)) 0) as [E|_].
  - destruct data; [congruence|simpl in E; lia].
  - destruct (negb (contentLength (WriteHeader 200 w) =? -1)
              && (contentLength (WriteHeader 200 w)
                  <? written (WriteHeader 200 w) + Z.of_nat (length data)));
      [discriminate|].
    rewrite WriteHeader_link, Hlink.
    destruct (Z.leb_spec (Z.of_nat (length data)) room); [|discriminate].
    intros [= <- <-]. now split.
Qed.

End HttpFacts.

(** ** Reading a file *)

Module FSFacts.
Import FS.

Lemma readable_length (data : list Byte.byte) (fault : option nat) :
  (length (readable data fault) <= length data)%nat.
Proof. unfold readable. destruct fault; [rewrite length_take|]; lia. Qed.

(** The two outcomes of a read that asks for at least one byte. *)
Lemma Read_file (data : list Byte.byte) (fault : option nat) (off : nat) (k : Z) :
  0 < k ->
  let chunk := take (Z.to_nat k) (drop off (readable data fault)) in
  (chunk = []
   /\ exists e, Read (FileHandle data fault off) k
                = (([], Some e), FileHandle data fault off)
                /\ (fault = None -> e = EOF)
                /\ (e = EOF -> drop off data = []))
  \/ (chunk <> []
      /\ (off < length data)%nat
      /\ Z.of_nat (length chunk) <= k
      /\ Read (FileHandle data fault off) k
         = ((chunk, None), FileHandle data fault (off + length chunk))).
Proof.
  intros Hk chunk. unfold Read.
  destruct (Z.leb_spec k 0) as [?|_]; [lia|].
  fold (readable data fault). fold chunk.
  pose proof (readable_length data fault) as Hgood.
  destruct chunk as [|b rest] eqn:E.
  - left. split; [reflexivity|]. eexists. split; [reflexivity|].
    split; [now intros ->|].
    apply take_nil_inv in E as [E|E]; [lia|]. apply drop_nil_inv in E.
    destruct fault as [p|]; cbn [is_some andb].
    + destruct (Nat.leb_spec (length (readable data (Some p))) off) as [_|?]; [|lia].
      cbn [andb].
      destruct (Nat.ltb_spec (length (readable data (Some p))) (length data));
        [discriminate|].
      intros _. apply drop_ge. lia.
    + intros _. now apply drop_ge.
  - right. split; [discriminate|].
    assert (length chunk <= Z.to_nat k /\ length chunk <= length data - off)%nat
      as [H1 H2].
    { unfold chunk. rewrite length_take, length_drop. lia. }
    rewrite E in H1, H2. simpl in H1, H2.
    split; [lia|]. split; [simpl; lia|]. reflexivity.
Qed.

Lemma take_length_take {A : Type} (l : list A) (k : nat) :
  take (length (take k l)) l = take k l.
Proof.
  rewrite length_take.
  destruct (Nat.le_gt_cases (length l) k) as [H|H].
  - rewrite Nat.min_r by lia. now rewrite !take_ge by lia.
  - now rewrite Nat.min_l by lia.
Qed.

(** What is read is the next stretch of the file itself. *)
Lemma readable_chunk (data : list Byte.byte) (fault : option nat) (off k : nat) :
  let chunk := take k (drop off (readable data fault)) in
  chunk = take (length chunk) (drop off data).
Proof.
  intros chunk.
  assert (exists j, chunk = take j (drop off data)) as [j Hj].
  { subst chunk. destruct fault as [p|]; simpl.
    - rewrite skipn_firstn_comm, take_take. now eexists.
    - now eexists. }
  rewrite Hj. symmetry. apply take_length_take.
Qed.

(** A chunk that is not empty has a positive length, which settles the
    test [nr > 0] of the loops. *)
Ltac chunk_positive chunk H :=
  assert (0 < Z.of_nat (length chunk)) as H
    by (destruct chunk; [congruence|simpl; lia]);
  destruct (Z.ltb_spec 0 (Z.of_nat (length chunk))) as [_|?]; [|lia].

Lemma Read_dir (ok : bool) (entries : list FileInfo) (k : Z) :
  Read (DirHandle ok entries) k = (([], Some ErrNotDir), DirHandle ok entries).
Proof. reflexivity. Qed.

(** A chunk and what follows it make up the part asked for. *)
Lemma chunk_then_rest {A : Type} (l : list A) (k r : nat) :
  (k <= r)%nat -> (0 < k)%nat ->
  take k l ++ take (r - length (take k l)) (drop (length (take k l)) l)
  = take r l.
Proof.
  intros Hkr Hk. rewrite length_take.
  destruct (Nat.le_gt_cases (length l) k) as [H|H].
  - rewrite Nat.min_r by lia. rewrite drop_all, take_nil, app_nil_r.
    rewrite !take_ge by lia. reflexivity.
  - rewrite Nat.min_l by lia. rewrite take_take_drop. f_equal. lia.
Qed.

End FSFacts.

(** ** The loop of the speed test *)

Module StreamFacts.
Import Http FS HttpFacts FSFacts.

Lemma to_read_bounds (remaining : Z) :
  0 < remaining ->
  let toRead := if remaining <? buf_len then remaining else buf_len in
  0 < toRead <= remaining /\ toRead <= buf_len.
Proof.
  intros H. simpl. rewrite buf_len_value.
  destruct (Z.ltb_spec remaining 1048576); lia.
Qed.

(** Every run of the loop ends, whatever the file and the connection do;
    it neither sends nor reads more than the budget. *)
Lemma stream_loop_bounds (fuel : nat) :
  forall (f : handle) (w : ResponseWriter) (remaining total : Z),
    enough fuel f -> 0 <= total -> 0 <= remaining ->
    total + remaining <= max_int64 ->
    exists total' w' f',
      stream_loop fuel f w remaining total = Ok (total', w', f')
      /\ total <= total' <= total + remaining
      /\ offset_of f <= offset_of f' <= offset_of f + remaining
      /\ header w' = header w /\ on_wire w' = on_wire w.
Proof.
  induction fuel as [|fuel IH]; intros f w remaining total Hfuel Ht Hr Hmax.
  - destruct f; simpl in Hfuel; lia.
  - simpl. destruct (Z.ltb_spec 0 remaining) as [Hpos|Hzero].
    2:{ exists total, w, f. repeat split; lia. }
    pose proof (to_read_bounds remaining Hpos) as Hk. simpl in Hk.
    set (toRead := if remaining <? buf_len then remaining else buf_len) in *.
    destruct f as [data fault off|ok entries].
    2:{ rewrite Read_dir. simpl. exists total, w, (DirHandle ok entries).
        repeat split; cbn [offset_of]; lia. }
    destruct (Read_file data fault off toRead (proj1 (proj1 Hk)))
      as [[_ [e [-> _]]]|[Hne [Hoff [Hlen ->]]]].
    { simpl. exists total, w, (FileHandle data fault off).
      repeat split; cbn [offset_of]; lia. }
    set (chunk := take (Z.to_nat toRead) (drop off (readable data fault))) in *.
    chunk_positive chunk Hnr.
    pose proof (Write_frame chunk w) as Hframe.
    pose proof (Write_on_wire chunk w) as Hwire.
    destruct (Write chunk w) as [[nw errw] w1] eqn:HW. simpl in Hframe, Hwire.
    destruct Hframe as [Hh _].
    destruct errw as [e|].
    { simpl. exists total, w1, (FileHandle data fault (off + length chunk)).
      repeat split; cbn [offset_of]; try lia; assumption. }
    destruct (Write_no_error _ _ _ _ HW) as [-> _].
    simpl. rewrite Z.eqb_refl. simpl.
    rewrite !wrap64_id by (unfold in_int64, min_int64, max_int64 in *; lia).
    destruct (IH (FileHandle data fault (off + length chunk)) w1
                 (remaining - Z.of_nat (length chunk))
                 (total + Z.of_nat (length chunk)))
      as [t' [w' [f' [Hrun [Ht' [Hoff' [Hh' Hwire']]]]]]]; try lia.
    { cbn [enough] in *. lia. }
    exists t', w', f'. split; [exact Hrun|]. cbn [offset_of] in *.
    repeat split; try lia; congruence.
Qed.

(** With a file that reads well and a client that stays, the loop sends
    the first [remaining] bytes of what is left of the file, or all of it
    when it is shorter. *)
Lemma stream_loop_healthy (fuel : nat) :
  forall (data : list Byte.byte) (off : nat) (w : ResponseWriter)
         (remaining total : Z),
    (length data - off < fuel)%nat -> 0 <= total -> 0 <= remaining ->
    total + remaining <= max_int64 -> healthy remaining w ->
    let part := take (Z.to_nat remaining) (drop off data) in
    exists w' f',
      stream_loop fuel (FileHandle data None off) w remaining total
      = Ok (total + Z.of_nat (length part), w', f')
      /\ body w' = body w ++ part
      /\ offset_of f' = Z.of_nat off + Z.of_nat (length part)
      /\ written w' = written w + Z.of_nat (length part)
      /\ healthy (remaining - Z.of_nat (length part)) w'
      /\ (part = [] -> w' = w)
      /\ (part <> [] -> wroteHeader w' = true)
      /\ declared w' = declared w.
Proof.
  induction fuel as [|fuel IH];
    intros data off w remaining total Hfuel Ht Hr Hmax Hw part; [lia|].
  simpl. destruct (Z.ltb_spec 0 remaining) as [Hpos|Hzero].
  2:{ assert (remaining = 0) as -> by lia. subst part. simpl.
      exists w, (FileHandle data None off). rewrite take_0. simpl.
      rewrite app_nil_r, !Z.add_0_r, Z.sub_0_r.
      repeat split; auto; try apply Hw; congruence. }
  pose proof (to_read_bounds remaining Hpos) as Hk. simpl in Hk.
  set (toRead := if remaining <? buf_len then remaining else buf_len) in *.
  destruct (Read_file data None off toRead (proj1 (proj1 Hk)))
    as [[Hnil [e [-> _]]]|[Hne [Hoff [Hlen ->]]]]; simpl in *.
  { apply take_nil_inv in Hnil as [Hz|Hnil]; [lia|].
    subst part. rewrite Hnil, take_nil. simpl.
    exists w, (FileHandle data None off).
    rewrite app_nil_r, !Z.add_0_r, Z.sub_0_r.
    repeat split; auto; try apply Hw; congruence. }
  set (chunk := take (Z.to_nat toRead) (drop off data)) in *.
  chunk_positive chunk Hnr.
  destruct (Write_healthy chunk w remaining Hw Hne)
    as [w1 [-> [Hbody [Hwritten [Hw1 [Hwrote1 Hdecl1]]]]]]; [lia|].
  simpl. rewrite Z.eqb_refl. simpl.
  rewrite !wrap64_id by (unfold in_int64, min_int64, max_int64 in *; lia).
  destruct (IH data (off + length chunk)%nat w1
               (remaining - Z.of_nat (length chunk))
               (total + Z.of_nat (length chunk)))
    as [w' [f' [Hrun [Hb' [Hoff' [Hwr' [Hh' [Hsame [Hwrote' Hdecl']]]]]]]]];
    try lia; [exact Hw1|].
  assert (chunk ++ take (Z.to_nat (remaining - Z.of_nat (length chunk)))
                        (drop (off + length chunk) data) = part) as Hpart.
  { subst part chunk. rewrite <- drop_drop.
    replace (Z.to_nat (remaining - Z.of_nat (length (take (Z.to_nat toRead) (drop off data)))))
      with (Z.to_nat remaining - length (take (Z.to_nat toRead) (drop off data)))%nat
      by lia.
    apply chunk_then_rest; lia. }
  set (rest := take (Z.to_nat (remaining - Z.of_nat (length chunk)))
                    (drop (off + length chunk) data)) in *.
  assert (Z.of_nat (length part) = Z.of_nat (length chunk) + Z.of_nat (length rest))
    as Hlenp by (rewrite <- Hpart, length_app; lia).
  exists w', f'. rewrite Hlenp.
  split; [rewrite Hrun; f_equal; f_equal; f_equal; lia|].
  split; [rewrite Hb', Hbody, <- Hpart; now rewrite app_assoc|].
  split; [lia|]. split; [lia|].
  split.
  - replace (remaining - (Z.of_nat (length chunk) + Z.of_nat (length rest)))
      with (remaining - Z.of_nat (length chunk) - Z.of_nat (length rest)) by lia.
    exact Hh'.
  - split; [|split; [|congruence]].
    + intros Hp. rewrite <- Hpart in Hp. destruct chunk; [congruence|discriminate].
    + intros _. destruct rest as [|b rest'] eqn:Erest.
      * now rewrite (Hsame eq_refl).
      * now apply Hwrote'.
Qed.

End StreamFacts.

(** ** Copying a file to the response *)

Module CopyFacts.
Import Http FS HttpFacts FSFacts.

(** The write of [Http.Write] never reports an impossible count. *)
Lemma Write_count (data : list Byte.byte) (w : ResponseWriter) :
  let nw := fst (fst (Write data w)) in
  0 <= nw <= Z.of_nat (length data).
Proof.
  unfold Write.
  destruct (Z.eqb_spec (Z.of_nat (length data)) 0) as [E|_]; [simpl; lia|].
  destruct (negb (contentLength (WriteHeader 200 w) =? -1)
            && (contentLength (WriteHeader 200 w)
                <? written (WriteHeader 200 w) + Z.of_nat (length data)));
    [simpl; lia|].
  destruct (link (WriteHeader 200 w)) as [room|]; [|simpl; lia].
  destruct (Z.leb_spec (Z.of_nat (length data)) room); simpl; lia.
Qed.

(** The write of a chunk in [CopyBuffer]: its count passes the check of
    the copy. *)
Ltac checked_write chunk w nw errw w1 HW :=
  let Hcount := fresh "Hcount" in
  pose proof (Write_count chunk w) as Hcount;
  destruct (Write chunk w) as [[nw errw] w1] eqn:HW; simpl in Hcount;
  (destruct (Z.ltb_spec nw 0) as [?|_]; [lia|]);
  (destruct (Z.ltb_spec (Z.of_nat (length chunk)) nw) as [?|_]; [lia|]).

(** Every copy ends; the header map and the header on the wire are not
    touched by it. *)
Lemma CopyBuffer_total (fuel : nat) :
  forall (f : handle) (w : ResponseWriter) (written : Z),
    enough fuel f -> in_int64 written ->
    exists n err w' f',
      CopyBuffer fuel w f written = Ok ((n, err), w', f')
      /\ in_int64 n
      /\ header w' = header w /\ on_wire w' = on_wire w.
Proof.
  induction fuel as [|fuel IH]; intros f w written0 Hfuel Hin.
  - destruct f; simpl in Hfuel; lia.
  - cbn [CopyBuffer]. destruct f as [data fault off|ok entries].
    2:{ rewrite Read_dir. simpl. now eexists _, _, _, _. }
    destruct (Read_file data fault off buf_len eq_refl)
      as [[_ [e [-> _]]]|[Hne [Hoff [Hlen ->]]]].
    { simpl. now eexists _, _, _, _. }
    set (chunk := take (Z.to_nat buf_len) (drop off (readable data fault))) in *.
    chunk_positive chunk Hnr.
    pose proof (Write_frame chunk w) as Hframe.
    pose proof (Write_on_wire chunk w) as Hwire.
    pose proof (Write_count chunk w) as Hcount.
    destruct (Write chunk w) as [[nw errw] w1] eqn:HW.
    simpl in Hframe, Hwire, Hcount. destruct Hframe as [Hh _].
    destruct (Z.ltb_spec nw 0) as [?|_]; [lia|].
    destruct (Z.ltb_spec (Z.of_nat (length chunk)) nw) as [?|_]; [lia|].
    simpl. destruct errw as [e|].
    { simpl. eexists _, _, _, _. split; [reflexivity|].
      split; [apply wrap64_in|]. now split. }
    simpl. destruct (Write_no_error _ _ _ _ HW) as [-> _].
    rewrite Z.eqb_refl. simpl.
    destruct (IH (FileHandle data fault (off + length chunk)) w1
                 (wrap64 (written0 + Z.of_nat (length chunk))))
      as [n [err [w' [f' [Hrun [Hn [Hh' Hwire']]]]]]].
    { cbn [enough] in *. lia. }
    { apply wrap64_in. }
    exists n, err, w', f'. split; [exact Hrun|]. split; [exact Hn|].
    split; congruence.
Qed.

(** A copy that ends without an error has brought the file to the
    response, from the offset it started at to the last byte. *)
Lemma CopyBuffer_nil_complete (fuel : nat) :
  forall (data : list Byte.byte) (fault : option nat) (off : nat)
         (w w' : ResponseWriter) (f' : handle) (written n : Z),
    CopyBuffer fuel w (FileHandle data fault off) written = Ok ((n, None), w', f') ->
    body w' = body w ++ drop off data.
Proof.
  induction fuel as [|fuel IH]; intros data fault off w w' f' written0 n; [discriminate|].
  cbn [CopyBuffer].
  destruct (Read_file data fault off buf_len eq_refl)
    as [[_ [e [-> [_ Hend]]]]|[Hne [Hoff [Hlen ->]]]].
  { simpl. destruct e; simpl; intros [= <- <- <-]; try discriminate.
    now rewrite (Hend eq_refl), app_nil_r. }
  set (chunk := take (Z.to_nat buf_len) (drop off (readable data fault))) in *.
  chunk_positive chunk Hnr.
  checked_write chunk w nw errw w1 HW.
  simpl. destruct errw as [e|]; [simpl; discriminate|].
  simpl. destruct (Write_no_error _ _ _ _ HW) as [-> Hbody].
  rewrite Z.eqb_refl. simpl. intros Hrun.
  apply IH in Hrun. rewrite Hrun, Hbody, <- app_assoc. f_equal.
  (* the chunk is the next stretch of the file itself *)
  pose proof (readable_chunk data fault off (Z.to_nat buf_len)) as Hchunk.
  simpl in Hchunk. fold chunk in Hchunk.
  rewrite Hchunk at 1. rewrite <- drop_drop. apply take_drop.
Qed.

(** With a file that reads well and a client that stays, the copy brings
    the whole file and reports no error. *)
Lemma CopyBuffer_healthy (fuel : nat) :
  forall (data : list Byte.byte) (off : nat) (w : ResponseWriter) (written0 : Z),
    (length data - off < fuel)%nat -> 0 <= written0 ->
    written0 + Z.of_nat (length (drop off data)) <= max_int64 ->
    healthy (Z.of_nat (length (drop off data))) w ->
    exists w' f',
      CopyBuffer fuel w (FileHandle data None off) written0
      = Ok ((written0 + Z.of_nat (length (drop off data)), None), w', f')
      /\ body w' = body w ++ drop off data.
Proof.
  induction fuel as [|fuel IH]; intros data off w written0 Hfuel Hw0 Hmax Hw; [lia|].
  cbn [CopyBuffer].
  destruct (Read_file data None off buf_len eq_refl)
    as [[Hnil [e [-> [He Hend]]]]|[Hne [Hoff [Hlen ->]]]].
  { rewrite (He eq_refl). simpl. rewrite (Hend (He eq_refl)). simpl.
    rewrite Z.add_0_r, app_nil_r. now eexists _, _. }
  cbn [readable] in *.
  set (chunk := take (Z.to_nat buf_len) (drop off data)) in *.
  chunk_positive chunk Hnr.
  assert (chunk ++ drop (off + length chunk) data = drop off data) as Hsplit.
  { subst chunk. rewrite length_take.
    destruct (Nat.le_gt_cases (length (drop off data)) (Z.to_nat buf_len)) as [H|H].
    - rewrite Nat.min_r by lia. rewrite take_ge by lia.
      rewrite <- drop_drop, drop_all. apply app_nil_r.
    - rewrite Nat.min_l by lia. rewrite <- drop_drop. apply take_drop. }
  assert (Z.of_nat (length (drop off data))
          = Z.of_nat (length chunk)
            + Z.of_nat (length (drop (off + length chunk) data))) as Hlens.
  { rewrite <- Hsplit at 1. rewrite length_app. lia. }
  destruct (Write_healthy chunk w _ Hw Hne) as [w1 [-> [Hbody [_ [Hw1 _]]]]]; [lia|].
  simpl.
  destruct (Z.ltb_spec (Z.of_nat (length chunk)) 0) as [?|_]; [lia|].
  rewrite Z.ltb_irrefl. simpl. rewrite Z.eqb_refl. simpl.
  rewrite wrap64_id by (unfold in_int64, min_int64, max_int64 in *; lia).
  destruct (IH data (off + length chunk)%nat w1 (written0 + Z.of_nat (length chunk)))
    as [w' [f' [Hrun Hb']]]; try lia.
  { replace (Z.of_nat (length (drop (off + length chunk) data)))
      with (Z.of_nat (length (drop off data)) - Z.of_nat (length chunk)) by lia.
    exact Hw1. }
  exists w', f'. split.
  - rewrite Hrun, Hlens, Z.add_assoc. reflexivity.
  - rewrite Hb', Hbody, <- app_assoc. now rewrite Hsplit.
Qed.

(** When the client leaves before the file is through, the copy ends with
    an error. *)
Lemma CopyBuffer_broken (fuel : nat) :
  forall (data : list Byte.byte) (fault : option nat) (off : nat)
         (w : ResponseWriter) (written0 room : Z),
    (length data - off < fuel)%nat -> in_int64 written0 ->
    link w = Some room ->
    0 <= room < Z.of_nat (length (drop off data)) ->
    exists n e w' f',
      CopyBuffer fuel w (FileHandle data fault off) written0
      = Ok ((n, Some e), w', f').
Proof.
  induction fuel as [|fuel IH];
    intros data fault off w written0 room Hfuel Hin Hlink Hroom; [lia|].
  destruct (CopyBuffer_total (S fuel) (FileHandle data fault off) w written0)
    as [n [err [w' [f' [Hrun _]]]]]; [exact Hfuel|exact Hin|].
  destruct err as [e|]; [now exists n, e, w', f'|].
  exfalso. revert Hrun. cbn [CopyBuffer].
  destruct (Read_file data fault off buf_len eq_refl)
    as [[_ [e [-> [_ Hend]]]]|[Hne [Hoff [Hlen ->]]]].
  { simpl. destruct e; simpl; try discriminate.
    rewrite (Hend eq_refl) in Hroom. simpl in Hroom. lia. }
  set (chunk := take (Z.to_nat buf_len) (drop off (readable data fault))) in *.
  chunk_positive chunk Hnr.
  checked_write chunk w nw errw w1 HW.
  simpl. destruct errw as [e|]; [simpl; discriminate|].
  simpl. destruct (Write_no_error _ _ _ _ HW) as [-> _].
  destruct (Write_link_kept _ _ _ _ _ Hlink Hne HW) as [Hlink1 Hfits].
  rewrite Z.eqb_refl. simpl. intros Hrun.
  assert (length chunk <= length (drop off data))%nat as Hle.
  { subst chunk. rewrite length_take, !length_drop.
    pose proof (readable_length data fault). lia. }
  destruct (IH data fault (off + length chunk)%nat w1
               (wrap64 (written0 + Z.of_nat (length chunk)))
               (room - Z.of_nat (length chunk)))
    as [n' [e' [w'' [f'' Hrun']]]]; try lia.
  { apply wrap64_in. }
  { exact Hlink1. }
  { rewrite length_drop in *. lia. }
  rewrite Hrun' in Hrun. discriminate.
Qed.

End CopyFacts.

(** ** Numbers in text *)

Module FmtFacts.
Import Fmt.

(** [%d] and [ParseInt] undo each other on [int64]. *)
Lemma ParseInt_sprint_d (n : Z) : in_int64 n -> ParseInt (sprint_d n) = Some n.
Proof.
  intros Hn. unfold ParseInt, sprint_d.
  rewrite NilZero.isi.
  - rewrite DecimalZ.of_to. now rewrite in_int64b_true.
  - destruct n; simpl; try discriminate.
    intros [= H]. now apply DecimalPos.Unsigned.to_uint_nonnil in H.
  - destruct n; simpl; try discriminate.
    intros [= H]. now apply DecimalPos.Unsigned.to_uint_nonnil in H.
Qed.

(** The tenths that [%.1f] prints are the nearest to the number. *)
Lemma round_half_even_nearest (num den : Z) :
  0 < den ->
  2 * Z.abs (num - round_half_even num den * den) <= den.
Proof.
  intros Hden. unfold round_half_even.
  pose proof (Z.div_mod num den) as Hdm.
  pose proof (Z.mod_pos_bound num den Hden) as Hr.
  destruct (Z.ltb_spec (2 * (num mod den)) den);
    [|destruct (Z.ltb_spec den (2 * (num mod den)));
      [|destruct (Z.even (num / den))]]; nia.
Qed.

Lemma round_half_even_nonneg (num den : Z) :
  0 <= num -> 0 < den -> 0 <= round_half_even num den.
Proof.
  intros Hn Hd. unfold round_half_even.
  pose proof (Z.div_pos num den Hn Hd).
  destruct (_ <? _); [lia|]. destruct (_ <? _); [lia|].
  destruct (Z.even _); lia.
Qed.

Lemma float64_of_int_nonneg (n : Z) : 0 <= n -> 0 <= float64_of_int n.
Proof.
  intros H. unfold float64_of_int.
  destruct (Z.leb_spec (Z.log2 n - 52) 0); [exact H|].
  assert (0 < 2 ^ (Z.log2 n - 52)) by (apply Z.pow_pos_nonneg; lia).
  pose proof (round_half_even_nonneg n (2 ^ (Z.log2 n - 52)) H H1). nia.
Qed.

(** Integers of at most 53 bits are floats as they are. *)
Lemma float64_of_int_exact (n : Z) :
  0 <= n < 2 ^ 53 -> float64_of_int n = n.
Proof.
  intros H. unfold float64_of_int.
  destruct (Z.eq_dec n 0) as [->|Hn]; [reflexivity|].
  assert (Z.log2 n < 53) by (apply Z.log2_lt_pow2; lia).
  destruct (Z.leb_spec (Z.log2 n - 52) 0); [reflexivity|lia].
Qed.

Lemma append_assoc (a b c : string) : (a +:+ b) +:+ c = a +:+ (b +:+ c).
Proof.
  induction a as [|x a IH]; [reflexivity|].
  change (String x ((a +:+ b) +:+ c) = String x (a +:+ (b +:+ c))).
  now rewrite IH.
Qed.

End FmtFacts.

(** ** Sizes for people *)

Module HumanFacts.

Lemma pow1024_pos (e : Z) : 0 <= e -> 0 < 1024 ^ e.
Proof. intros H. apply Z.pow_pos_nonneg; lia. Qed.

Lemma pow1024_succ (e : Z) : 0 <= e -> 1024 ^ (e + 1) = 1024 ^ e * 1024.
Proof. intros H. rewrite Z.pow_add_r by lia. reflexivity. Qed.

Lemma pow1024_int64 (e : Z) : 0 <= e <= 6 -> in_int64 (1024 ^ e).
Proof.
  intros H. unfold in_int64, min_int64, max_int64.
  pose proof (pow1024_pos e (proj1 H)).
  assert (1024 ^ e <= 1024 ^ 6) by (apply Z.pow_le_mono_r; lia).
  change (1024 ^ 6) with 1152921504606846976 in *. lia.
Qed.

(** The loop stops at the power of 1024 that [n] has reached. *)
Lemma human_loop_spec (k : nat) :
  forall (fuel : nat) (n exp : Z),
    (k < fuel)%nat -> 0 <= exp -> exp + Z.of_nat k <= 5 ->
    1024 ^ (exp + Z.of_nat k + 1) <= n < 1024 ^ (exp + Z.of_nat k + 2) ->
    human_loop fuel n (1024 ^ (exp + 1)) exp
    = Ok (1024 ^ (exp + Z.of_nat k + 1), exp + Z.of_nat k).
Proof.
  induction k as [|k IH]; intros fuel n exp Hfuel Hexp He Hn;
    (destruct fuel as [|fuel]; [lia|]); cbn [human_loop];
    pose proof (pow1024_pos (exp + 1) ltac:(lia)) as Hdiv;
    (destruct (Z.eqb_spec (1024 ^ (exp + 1)) 0) as [?|_]; [lia|]); unfold unit.
  - replace (exp + Z.of_nat 0 + 1) with (exp + 1) in * by lia.
    replace (exp + Z.of_nat 0 + 2) with (exp + 1 + 1) in * by lia.
    rewrite Z.quot_div_nonneg by lia.
    rewrite (pow1024_succ (exp + 1)) in Hn by lia.
    assert (n / 1024 ^ (exp + 1) < 1024)
      by (apply Z.div_lt_upper_bound; lia).
    destruct (Z.leb_spec 1024 (n / 1024 ^ (exp + 1))); [lia|].
    now rewrite Z.add_0_r.
  - assert (1024 ^ (exp + 1 + 1) <= 1024 ^ (exp + Z.of_nat (S k) + 1)) as Hle
      by (apply Z.pow_le_mono_r; lia).
    rewrite (pow1024_succ (exp + 1)) in Hle by lia.
    rewrite Z.quot_div_nonneg by lia.
    assert (1024 <= n / 1024 ^ (exp + 1))
      by (apply Z.div_le_lower_bound; lia).
    destruct (Z.leb_spec 1024 (n / 1024 ^ (exp + 1))); [|lia].
    rewrite <- pow1024_succ by lia.
    rewrite wrap64_id by (apply pow1024_int64; lia).
    rewrite (IH fuel n (exp + 1)); try lia.
    + replace (exp + 1 + Z.of_nat k + 1) with (exp + Z.of_nat (S k) + 1) by lia.
      replace (exp + 1 + Z.of_nat k) with (exp + Z.of_nat (S k)) by lia.
      reflexivity.
    + replace (exp + 1 + Z.of_nat k + 1) with (exp + Z.of_nat (S k) + 1) by lia.
      replace (exp + 1 + Z.of_nat k + 2) with (exp + Z.of_nat (S k) + 2) by lia.
      exact Hn.
Qed.

Lemma small_cases (e : Z) :
  0 <= e <= 5 -> e = 0 \/ e = 1 \/ e = 2 \/ e = 3 \/ e = 4 \/ e = 5.
Proof. lia. Qed.

Lemma index_unit (e : Z) :
  0 <= e <= 5 ->
  exists c, String.get (Z.to_nat e) "KMGTPE" = Some c
            /\ Fmt.index "KMGTPE" e = Ok c.
Proof.
  intros H. destruct (small_cases e H) as [-> | [-> | [-> | [-> | [-> | ->]]]]];
    eexists; split; reflexivity.
Qed.

Lemma float64_of_unit (e : Z) :
  0 <= e <= 5 -> Fmt.float64_of_int (1024 ^ (e + 1)) = 1024 ^ (e + 1).
Proof.
  intros H. destruct (small_cases e H) as [-> | [-> | [-> | [-> | [-> | ->]]]]];
    reflexivity.
Qed.

(** The power of 1024 a size has reached. *)
Lemma magnitude (n : Z) :
  1024 <= n <= max_int64 ->
  exists e, 0 <= e <= 5 /\ 1024 ^ (e + 1) <= n < 1024 ^ (e + 2).
Proof.
  unfold max_int64. intros H.
  destruct (Z_lt_dec n (1024 ^ 2)); [exists 0; simpl; lia|].
  destruct (Z_lt_dec n (1024 ^ 3)); [exists 1; simpl; lia|].
  destruct (Z_lt_dec n (1024 ^ 4)); [exists 2; simpl; lia|].
  destruct (Z_lt_dec n (1024 ^ 5)); [exists 3; simpl; lia|].
  destruct (Z_lt_dec n (1024 ^ 6)); [exists 4; simpl; lia|].
  exists 5. simpl. lia.
Qed.

Lemma human_small (n : Z) : n < 1024 -> human n = Ok (Fmt.sprint_d n +:+ " B").
Proof.
  intros H. unfold human, unit. now destruct (Z.ltb_spec n 1024); [|lia].
Qed.

Lemma human_large (n e : Z) (c : ascii) :
  0 <= e <= 5 -> 1024 ^ (e + 1) <= n < 1024 ^ (e + 2) ->
  String.get (Z.to_nat e) "KMGTPE" = Some c ->
  human n = Ok (Fmt.sprint_f1 (Fmt.float64_of_int n) (1024 ^ (e + 1))
                +:+ " " +:+ String c "B").
Proof.
  intros He Hn Hc. unfold human, unit.
  assert (1024 <= n).
  { assert (1024 ^ 1 <= 1024 ^ (e + 1)) by (apply Z.pow_le_mono_r; lia). lia. }
  destruct (Z.ltb_spec n 1024); [lia|].
  pose proof (human_loop_spec (Z.to_nat e) 64 n 0) as Hloop.
  rewrite Z2Nat.id in Hloop by lia. unfold unit in Hloop.
  change (1024 ^ (0 + 1)) with 1024 in Hloop. rewrite !Z.add_0_l in Hloop.
  rewrite Hloop; [|lia|lia|lia|exact Hn]. cbn [mbind result_bind].
  destruct (index_unit e He) as [c' [Hc' ->]].
  rewrite Hc in Hc'. injection Hc' as <-.
  cbn [mbind result_bind]. rewrite float64_of_unit by lia.
  reflexivity.
Qed.

(** [human] answers on every size. *)
Lemma human_total (n : Z) : n <= max_int64 -> exists s, human n = Ok s.
Proof.
  intros H. destruct (Z_lt_dec n 1024) as [Hs|Hl].
  - eexists. now apply human_small.
  - destruct (magnitude n ltac:(lia)) as [e [He Hn]].
    destruct (index_unit e He) as [c [Hc _]].
    eexists. now apply (human_large n e c).
Qed.

End HumanFacts.

(** C7. [human] writes a size in binary units: below 1024 as the integer
    and [" B"]; from 1024 on as the size over the largest power of 1024 it
    reaches, printed with one decimal (the nearest tenth), a space, and
    the letter of that power among K, M, G, T, P, E, then ["B"].  It
    returns ["0 B"], ["1.0 KB"], ["1.5 KB"] and ["1.0 MB"] on 0, 1024, 1536
    and 1048576. *)
Theorem human_binary_units :
  (forall n, in_int64 n -> n < 1024 ->
     human n = Ok (Fmt.sprint_d n +:+ " B"))
  /\ (forall n, in_int64 n -> 1024 <= n ->
        exists (e tenths : Z) (c : ascii),
          0 <= e <= 5
          /\ 1024 ^ (e + 1) <= n < 1024 ^ (e + 2)
          /\ String.get (Z.to_nat e) "KMGTPE" = Some c
          /\ 0 <= tenths
          /\ 2 * Z.abs (10 * Fmt.float64_of_int n - tenths * 1024 ^ (e + 1))
             <= 1024 ^ (e + 1)
          /\ human n = Ok (Fmt.sprint_d (tenths / 10) +:+ "."
                           +:+ String (Fmt.digit (tenths mod 10)) ""
                           +:+ " " +:+ String c "B"))
  /\ human 0 = Ok "0 B"
  /\ human 1024 = Ok "1.0 KB"
  /\ human 1536 = Ok "1.5 KB"
  /\ human 1048576 = Ok "1.0 MB".
Proof.
  split; [|split; [|repeat split; reflexivity]].
  - intros n _ H. now apply HumanFacts.human_small.
  - intros n [_ Hmax] Hn.
    destruct (HumanFacts.magnitude n ltac:(lia)) as [e [He Hmag]].
    destruct (HumanFacts.index_unit e He) as [c [Hc _]].
    pose proof (HumanFacts.pow1024_pos (e + 1) ltac:(lia)) as Hpos.
    exists e, (Fmt.round_half_even (10 * Fmt.float64_of_int n) (1024 ^ (e + 1))), c.
    split; [exact He|]. split; [exact Hmag|]. split; [exact Hc|].
    split.
    { apply FmtFacts.round_half_even_nonneg; [|exact Hpos].
      pose proof (FmtFacts.float64_of_int_nonneg n ltac:(lia)). lia. }
    split; [now apply FmtFacts.round_half_even_nearest|].
    rewrite (HumanFacts.human_large n e c He Hmag Hc). unfold Fmt.sprint_f1.
    now rewrite !FmtFacts.append_assoc.
Qed.

(** The statement at the size 1536: between 1024 and 1024 squared, so in
    KB, and 1.5 of them. *)
Lemma human_binary_units_witness :
  in_int64 1536 /\ 1024 <= 1536
  /\ exists (e tenths : Z) (c : ascii),
       0 <= e <= 5
       /\ 1024 ^ (e + 1) <= 1536 < 1024 ^ (e + 2)
       /\ String.get (Z.to_nat e) "KMGTPE" = Some c
       /\ 0 <= tenths
       /\ 2 * Z.abs (10 * Fmt.float64_of_int 1536 - tenths * 1024 ^ (e + 1))
          <= 1024 ^ (e + 1)
       /\ human 1536 = Ok (Fmt.sprint_d (tenths / 10) +:+ "."
                           +:+ String (Fmt.digit (tenths mod 10)) ""
                           +:+ " " +:+ String c "B").
Proof.
  assert (in_int64 1536) as H1 by (unfold in_int64, min_int64, max_int64; lia).
  assert (1024 <= 1536) as H2 by lia.
  split; [exact H1|]. split; [exact H2|].
  exact (proj1 (proj2 human_binary_units) 1536 H1 H2).
Defined.


(** ** Throughput *)

Lemma Seconds_zero (d : Z) : Qeq_bool (Seconds d) 0 = true <-> d = 0.
Proof.
  rewrite Qeq_bool_iff. unfold Seconds, Qeq. simpl. lia.
Qed.

Lemma nonzero_elapsed_nonzero (e : Q) : ~ (nonzero_elapsed e == 0)%Q.
Proof.
  unfold nonzero_elapsed. destruct (Qeq_bool e 0) eqn:E.
  - discriminate.
  - now apply Qeq_bool_neq.
Qed.

Lemma mb_rate_exact (n : Z) (e : Q) :
  ~ (e == 0)%Q -> (mb_rate n e * e * inject_Z (1024 * 1024) == inject_Z n)%Q.
Proof. intros H. unfold mb_rate. field. split; [discriminate|exact H]. Qed.

(** C9. Both reports divide by an elapsed time that is never zero: a
    measure of zero is replaced by 0.000001 seconds, any other is kept, and
    the rate times the elapsed time times 1024 x 1024 gives back the bytes
    sent.  This is the elapsed time and the rate of the line that
    [serveFileFast] logs and of the object that [speedTestHandler]
    reports. *)
Theorem throughput_never_divides_by_zero (name target : string) (n d : Z) :
  n <= max_int64 ->
  let e := nonzero_elapsed (Seconds d) in
  ~ (e == 0)%Q
  /\ (d = 0 -> e = (1 # 1000000)%Q)
  /\ (d <> 0 -> e = Seconds d)
  /\ (mb_rate n e * e * inject_Z (1024 * 1024) == inject_Z n)%Q
  /\ (exists size,
        human n = Ok size
        /\ transfer_report name n d = Ok (TransferLine name size e (mb_rate n e)))
  /\ speed_report target n d = mkResult (Path.Base target) n (mb_rate n e) e.
Proof.
  intros Hn e.
  pose proof (nonzero_elapsed_nonzero (Seconds d)) as Hne. fold e in Hne.
  split; [exact Hne|]. split; [|split; [|split; [|split]]].
  - intros ->. reflexivity.
  - intros Hd. subst e. unfold nonzero_elapsed.
    destruct (Qeq_bool (Seconds d) 0) eqn:E; [|reflexivity].
    now apply Seconds_zero in E.
  - now apply mb_rate_exact.
  - destruct (HumanFacts.human_total n Hn) as [size Hsize].
    exists size. split; [exact Hsize|].
    unfold transfer_report. rewrite Hsize. reflexivity.
  - reflexivity.
Qed.

(** The statement for 3 MiB sent in no measurable time. *)
Lemma throughput_never_divides_by_zero_witness :
  3145728 <= max_int64
  /\ ~ (nonzero_elapsed (Seconds 0) == 0)%Q
  /\ nonzero_elapsed (Seconds 0) = (1 # 1000000)%Q
  /\ (mb_rate 3145728 (nonzero_elapsed (Seconds 0)) == 3000000 # 1)%Q.
Proof.
  assert (3145728 <= max_int64) as H by (unfold max_int64; lia).
  destruct (throughput_never_divides_by_zero "clip.mp4" "/srv/share/clip.mp4"
              3145728 0 H) as [H1 [H2 _]].
  split; [exact H|]. split; [exact H1|]. split; [exact (H2 eq_refl)|].
  reflexivity.
Defined.

(** ** The speed test *)

Module SpeedFacts.
Import Http FS HttpFacts FSFacts StreamFacts.

Lemma budget_cases (cfg : Config) :
  (speedBytes cfg <= 0 /\ budget cfg = 50 * 2 ^ 20)
  \/ (0 < speedBytes cfg /\ budget cfg = speedBytes cfg).
Proof.
  unfold budget. destruct (Z.leb_spec (speedBytes cfg) 0); [left|right];
    split; (lia || reflexivity).
Qed.

Lemma budget_range (cfg : Config) :
  in_int64 (speedBytes cfg) -> 0 < budget cfg <= max_int64.
Proof.
  unfold in_int64, max_int64. intros H.
  destruct (budget_cases cfg) as [[_ ->]|[? ->]]; lia.
Qed.

Lemma speed_header_length (cfg : Config) (w : ResponseWriter) :
  header (speed_header cfg w) !! "Content-Length" = Some (Fmt.sprint_d (budget cfg)).
Proof.
  unfold speed_header, Set_, with_header. simpl.
  rewrite lookup_insert_ne by discriminate. apply lookup_insert_eq.
Qed.

Lemma speed_header_type (cfg : Config) (w : ResponseWriter) :
  header (speed_header cfg w) !! "Content-Type" = Some "application/octet-stream".
Proof.
  unfold speed_header, Set_, with_header. simpl.
  rewrite !lookup_insert_ne by discriminate. apply lookup_insert_eq.
Qed.

Lemma speed_header_declared (cfg : Config) (w : ResponseWriter) :
  in_int64 (speedBytes cfg) -> wroteHeader w = false ->
  declared (speed_header cfg w) = budget cfg.
Proof.
  intros Hin Hw. unfold declared.
  assert (wroteHeader (speed_header cfg w) = false) as -> by exact Hw.
  unfold declared_length. rewrite speed_header_length.
  pose proof (budget_range cfg Hin) as Hb.
  rewrite FmtFacts.ParseInt_sprint_d
    by (unfold in_int64, min_int64, max_int64 in *; lia).
  destruct (Z.leb_spec 0 (budget cfg)); [reflexivity|lia].
Qed.

Section Run.

Variable Marshal : SpeedResult -> string.
Variables (cfg : Config) (fs : filesystem).

(** A run of the speed test that finds and opens its file: the loop ends
    within the budget, then the report goes to the log and is handed to
    the response. *)
Lemma speedtest_run (fuel : nat) (ns : Z) (r : Request) (st : world)
  (target : string) (f : handle) :
  select_target cfg fs (query_file r) = target -> target <> "" ->
  Open fs target = Some f -> enough fuel f -> in_int64 (speedBytes cfg) ->
  exists total w' f',
    stream_loop fuel f (speed_header cfg (resp st)) (budget cfg) 0
    = Ok (total, w', f')
    /\ 0 <= total <= budget cfg
    /\ offset_of f <= offset_of f' <= offset_of f + budget cfg
    /\ header w' = header (speed_header cfg (resp st))
    /\ on_wire w' = on_wire (speed_header cfg (resp st))
    /\ speedTestHandler Marshal cfg fs fuel ns r st
       = Ok (mkWorld
               (Fprint (Marshal (speed_report target total ns))
                       (Set_ "Content-Type" "application/json" w'))
               (stdout st
                ++ [TextLine (Marshal (speed_report target total ns) +:+ newline)])).
Proof.
  intros Htarget Hne Hopen Hfuel Hin.
  pose proof (budget_range cfg Hin) as Hb.
  destruct (stream_loop_bounds fuel f (speed_header cfg (resp st)) (budget cfg) 0)
    as [total [w' [f' [Hrun [Ht [Hoff [Hh Hwire]]]]]]]; try lia; [exact Hfuel|].
  exists total, w', f'. split; [exact Hrun|]. split; [lia|].
  split; [exact Hoff|]. split; [exact Hh|]. split; [exact Hwire|].
  unfold speedTestHandler. rewrite Htarget.
  apply String.eqb_neq in Hne. rewrite Hne, Hopen.
  fold (speed_header cfg (resp st)). rewrite Hrun. reflexivity.
Qed.

End Run.

End SpeedFacts.

Section SpeedTheorems.
Import Http FS HttpFacts SpeedFacts.

Variable Marshal : SpeedResult -> string.
Variables (cfg : Config) (fs : filesystem).

(** The type and the length on the wire after the speed test: the length
    is the budget; the type is the one of the byte stream as soon as one
    chunk has been written, and only a run that streamed nothing carries
    the type of the report. *)
Lemma speedtest_wire (l : option Z) (w' : ResponseWriter) (js : string) :
  on_wire w' = on_wire (speed_header cfg (fresh l)) ->
  header w' = header (speed_header cfg (fresh l)) ->
  let final := finish (Fprint js (Set_ "Content-Type" "application/json" w')) in
  sent final !! "Content-Length" = Some (Fmt.sprint_d (budget cfg))
  /\ sent final !! "Content-Type"
     = Some (if wroteHeader w' then "application/octet-stream"
             else "application/json").
Proof.
  intros Hwire Hh final. subst final.
  rewrite finish_sent. unfold Fprint. rewrite Write_on_wire.
  assert (on_wire (speed_header cfg (fresh l)) = header (speed_header cfg (fresh l)))
    as Hfresh by reflexivity.
  destruct (wroteHeader w') eqn:Hw.
  - rewrite on_wire_committed, Hwire, Hfresh by exact Hw.
    split; [apply speed_header_length|apply speed_header_type].
  - rewrite on_wire_pending, Hwire, Hfresh by exact Hw.
    split; [|apply lookup_insert_eq].
    rewrite lookup_insert_ne by discriminate. apply speed_header_length.
Qed.



(** Supporting C6: in a run that streams at least one byte the header is
    committed with the type of the byte stream before the report is made,
    so the response does not carry [application/json]; and when the file
    fills the budget, the declared length is used up and the report is
    refused by the response. *)
Lemma speedtest_report_after_stream (fuel : nat) (ns : Z) (r : Request)
  (out : list log_line) (target : string) (data : list Byte.byte) :
  0 < speedBytes cfg <= max_int64 ->
  select_target cfg fs (query_file r) = target -> target <> "" ->
  Open fs target = Some (FileHandle data None 0) ->
  (length data < fuel)%nat -> data <> [] ->
  exists st',
    speedTestHandler Marshal cfg fs fuel ns r (mkWorld (fresh None) out) = Ok st'
    /\ sent (finish (resp st')) !! "Content-Type" = Some "application/octet-stream"
    /\ (speedBytes cfg <= Z.of_nat (length data) ->
        Marshal (speed_report target (speedBytes cfg) ns) <> "" ->
        body (resp st') = take (Z.to_nat (speedBytes cfg)) data).
Proof.
  intros HN Htarget Hne Hopen Hfuel Hdata.
  assert (in_int64 (speedBytes cfg)) as Hin
    by (unfold in_int64, min_int64, max_int64 in *; lia).
  assert (budget cfg = speedBytes cfg) as Hbudget
    by (destruct (budget_cases cfg) as [[? _]|[_ ?]]; [lia|assumption]).
  assert (healthy (speedBytes cfg) (speed_header cfg (fresh None))) as Hhealthy.
  { split; [reflexivity|]. right.
    rewrite speed_header_declared by (assumption || reflexivity).
    change (written (speed_header cfg (fresh None))) with 0. lia. }
  destruct (StreamFacts.stream_loop_healthy fuel data 0
              (speed_header cfg (fresh None)) (speedBytes cfg) 0)
    as [w' [f' [Hrun [Hbody [_ [Hwritten [_ [_ [Hwrote Hdecl]]]]]]]]];
    try lia; [exact Hhealthy|].
  rewrite drop_0 in *.
  change (body (speed_header cfg (fresh None))) with (@nil Byte.byte) in Hbody.
  change (written (speed_header cfg (fresh None))) with 0 in Hwritten.
  rewrite app_nil_l in Hbody. rewrite Z.add_0_l in Hrun, Hwritten.
  rewrite speed_header_declared in Hdecl by (assumption || reflexivity).
  assert (take (Z.to_nat (speedBytes cfg)) data <> []) as Hpart.
  { intros E. apply take_nil_inv in E as [?|?]; [lia|congruence]. }
  specialize (Hwrote Hpart).
  destruct (speedtest_run Marshal cfg fs fuel ns r (mkWorld (fresh None) out)
              target _ Htarget Hne Hopen ltac:(simpl; lia) Hin)
    as [total [w2 [f2 [Hrun2 [_ [_ [Hh [Hwire Hhandler]]]]]]]].
  cbn [resp stdout] in *. rewrite Hbudget in *.
  rewrite Hrun in Hrun2. injection Hrun2 as <- <- <-.
  eexists. split; [exact Hhandler|]. cbn [resp].
  split.
  - rewrite (proj2 (speedtest_wire None w' _ Hwire Hh)). now rewrite Hwrote.
  - intros Hfull Hjs.
    assert (Z.of_nat (length (take (Z.to_nat (speedBytes cfg)) data)) = speedBytes cfg)
      as Hlen by (rewrite length_take; lia).
    rewrite Hlen in *.
    unfold Fprint. rewrite Write_over_length.
    + cbn [snd body]. exact Hbody.
    + unfold Fmt.bytes. intros E.
      apply (f_equal string_of_list_byte) in E.
      rewrite string_of_list_byte_of_string in E. exact (Hjs E).
    + unfold declared in *. cbn [Set_ with_header wroteHeader contentLength].
      rewrite Hwrote in *. lia.
    + unfold declared in *. cbn [Set_ with_header wroteHeader contentLength written].
      rewrite Hwrote in *.
      assert (0 < Z.of_nat (length (Fmt.bytes (Marshal (speed_report target (speedBytes cfg) ns))))).
      { destruct (Fmt.bytes _) eqn:E; [|simpl; lia].
        exfalso. apply Hjs. unfold Fmt.bytes in E.
        apply (f_equal string_of_list_byte) in E.
        now rewrite string_of_list_byte_of_string in E. }
      lia.
Qed.

End SpeedTheorems.





(** C6, at a failing input: the speed test with a budget of 4 bytes on the
    sample tree.  The 4 bytes are streamed, which commits the header with
    the type [application/octet-stream] and the length 4; the type set
    afterwards stays in the map and is not sent, and the report, which
    would pass the declared length, is refused: the body holds the 4 bytes
    of the file and nothing of the report, which reaches the log only. *)
Theorem speedtest_report_not_in_response :
  exists w,
    speedTestHandler sample_marshal (sample_cfg 4) sample_fs 100 0
                     (mkRequest "/speedtest" "" "") (start None)
    = Ok (mkWorld w
            [TextLine (sample_marshal
                         (speed_report "/srv/share/clip.mp4" 4 0) +:+ newline)])
    /\ Http.sent (Http.finish w) !! "Content-Type"
       = Some "application/octet-stream"
    /\ Http.header w !! "Content-Type" = Some "application/json"
    /\ Http.body w = Fmt.bytes "abcd".
Proof.
  eexists. split; [vm_compute; reflexivity|].
  split; [vm_compute; reflexivity|]. split; vm_compute; reflexivity.
Qed.


(** ** Serving a file *)

Section FileTheorems.
Import Http FS HttpFacts FSFacts CopyFacts.

Variable TypeByExtension : string -> string.
Variable ServeContent :
  ResponseWriter -> Request -> string -> handle -> ResponseWriter.
Variable fs : filesystem.

Local Abbreviation serveFile := (serveFileFast TypeByExtension ServeContent fs).

Lemma file_header_lookup (path : string) (fi : FileInfo) (w : ResponseWriter) :
  let h := header (file_header TypeByExtension path fi w) in
  h !! "Content-Type" = Some (content_type TypeByExtension path)
  /\ h !! "Content-Length" = Some (Fmt.sprint_d (Size fi))
  /\ h !! "Accept-Ranges" = Some "bytes".
Proof.
  unfold file_header, Set_, with_header. simpl. repeat split.
  - rewrite !lookup_insert_ne by discriminate. apply lookup_insert_eq.
  - rewrite lookup_insert_ne by discriminate. apply lookup_insert_eq.
  - apply lookup_insert_eq.
Qed.

Lemma file_header_declared (path : string) (fi : FileInfo) (w : ResponseWriter) :
  0 <= Size fi <= max_int64 -> wroteHeader w = false ->
  declared (file_header TypeByExtension path fi w) = Size fi.
Proof.
  intros Hsize Hw. unfold declared.
  assert (wroteHeader (file_header TypeByExtension path fi w) = false) as ->
    by exact Hw.
  unfold declared_length.
  rewrite (proj1 (proj2 (file_header_lookup path fi w))).
  rewrite FmtFacts.ParseInt_sprint_d
    by (unfold in_int64, min_int64, max_int64 in *; lia).
  destruct (Z.leb_spec 0 (Size fi)); [reflexivity|lia].
Qed.

(** With a [Range] header the file goes to [ServeContent]; the log is left
    alone. *)
Lemma serve_range (fuel : nat) (ns : Z) (r : Request) (path : string)
  (fi : FileInfo) (st : world) :
  range r <> "" ->
  exists st', serveFile fuel ns r path fi st = Ok st' /\ stdout st' = stdout st.
Proof.
  intros H. unfold serveFileFast. apply String.eqb_neq in H. rewrite H. simpl.
  destruct (Open fs path); eexists; split; reflexivity.
Qed.

(** Without one, a file that cannot be opened is answered with status 500
    and nothing else. *)
Lemma serve_full_unopened (fuel : nat) (ns : Z) (r : Request) (path : string)
  (fi : FileInfo) (st : world) :
  range r = "" -> Open fs path = None ->
  serveFile fuel ns r path fi st
  = Ok (mkWorld (Error "cannot open file" StatusInternalServerError (resp st))
                (stdout st)).
Proof. intros Hr Ho. unfold serveFileFast. now rewrite Hr, Ho. Qed.

(** Without one, a file that opens is copied; the line for the log follows
    exactly when the copy ends without an error. *)
Lemma serve_full_run (fuel : nat) (ns : Z) (r : Request) (path : string)
  (fi : FileInfo) (st : world) (f : handle) :
  range r = "" -> Open fs path = Some f -> enough fuel f ->
  exists n err w' f',
    CopyBuffer fuel (file_header TypeByExtension path fi (resp st)) f 0
    = Ok ((n, err), w', f')
    /\ header w' = header (file_header TypeByExtension path fi (resp st))
    /\ on_wire w' = on_wire (file_header TypeByExtension path fi (resp st))
    /\ (err = None ->
        exists size,
          human n = Ok size
          /\ serveFile fuel ns r path fi st
             = Ok (mkWorld w'
                     (stdout st
                      ++ [TransferLine (Name fi) size
                            (nonzero_elapsed (Seconds ns))
                            (mb_rate n (nonzero_elapsed (Seconds ns)))])))
    /\ (err <> None -> serveFile fuel ns r path fi st = Ok (mkWorld w' (stdout st))).
Proof.
  intros Hr Ho Hfuel.
  destruct (CopyBuffer_total fuel f (file_header TypeByExtension path fi (resp st)) 0)
    as [n [err [w' [f' [Hrun [Hn [Hh Hwire]]]]]]];
    [exact Hfuel|unfold in_int64, min_int64, max_int64; lia|].
  exists n, err, w', f'. split; [exact Hrun|]. split; [exact Hh|].
  split; [exact Hwire|].
  unfold serveFileFast. rewrite Hr, Ho. simpl negb. cbv iota.
  fold (content_type TypeByExtension path).
  fold (file_header TypeByExtension path fi (resp st)).
  rewrite Hrun. cbn [mbind result_bind]. split.
  - intros ->. destruct (HumanFacts.human_total n (proj2 Hn)) as [size Hsize].
    exists size. split; [exact Hsize|]. cbn [is_some].
    unfold transfer_report. rewrite Hsize. reflexivity.
  - intros Herr. destruct err; [reflexivity|congruence].
Qed.

(** When the client leaves before the file is through, the handler returns
    without a line for the log. *)
Lemma serve_full_broken (fuel : nat) (ns : Z) (r : Request) (path : string)
  (fi : FileInfo) (st : world) (data : list Byte.byte) (fault : option nat)
  (room : Z) :
  range r = "" -> Open fs path = Some (FileHandle data fault 0) ->
  (length data < fuel)%nat ->
  link (resp st) = Some room -> 0 <= room < Z.of_nat (length data) ->
  exists w', serveFile fuel ns r path fi st = Ok (mkWorld w' (stdout st)).
Proof.
  intros Hr Ho Hfuel Hlink Hroom.
  destruct (serve_full_run fuel ns r path fi st _ Hr Ho ltac:(simpl; lia))
    as [n [err [w' [f' [Hrun [_ [_ [_ Herr]]]]]]]].
  destruct (CopyBuffer_broken fuel data fault 0
              (file_header TypeByExtension path fi (resp st)) 0 room)
    as [n' [e [w'' [f'' Hrun']]]]; try lia.
  { unfold in_int64, min_int64, max_int64; lia. }
  { exact Hlink. }
  { now rewrite drop_0. }
  rewrite Hrun' in Hrun. injection Hrun as <- <- <- <-.
  exists w''. now apply Herr.
Qed.

(** When the file reads well and the client stays, the whole file is in
    the response and the line is in the log. *)
Lemma serve_full_healthy (fuel : nat) (ns : Z) (r : Request) (path : string)
  (fi : FileInfo) (st : world) (data : list Byte.byte) :
  range r = "" -> Open fs path = Some (FileHandle data None 0) ->
  (length data < fuel)%nat ->
  Size fi = Z.of_nat (length data) -> Size fi <= max_int64 ->
  wroteHeader (resp st) = false -> written (resp st) = 0 ->
  link (resp st) = None ->
  exists w' size,
    serveFile fuel ns r path fi st
    = Ok (mkWorld w'
            (stdout st
             ++ [TransferLine (Name fi) size
                   (nonzero_elapsed (Seconds ns))
                   (mb_rate (Size fi) (nonzero_elapsed (Seconds ns)))]))
    /\ body w' = body (resp st) ++ data.
Proof.
  intros Hr Ho Hfuel Hsize Hmax Hw Hwritten Hlink.
  destruct (serve_full_run fuel ns r path fi st _ Hr Ho ltac:(simpl; lia))
    as [n [err [w' [f' [Hrun [_ [_ [Hnil _]]]]]]]].
  destruct (CopyBuffer_healthy fuel data 0
              (file_header TypeByExtension path fi (resp st)) 0)
    as [w'' [f'' [Hrun' Hbody]]]; try lia.
  { rewrite drop_0. lia. }
  { rewrite drop_0. split; [exact Hlink|]. right.
    rewrite file_header_declared by (assumption || lia).
    change (written (file_header TypeByExtension path fi (resp st)))
      with (written (resp st)). lia. }
  rewrite drop_0 in *. rewrite Hrun' in Hrun. injection Hrun as <- <- <- <-.
  destruct (Hnil eq_refl) as [size [_ Hserve]].
  exists w'', size. rewrite Z.add_0_l, <- Hsize in Hserve.
  split; [exact Hserve|exact Hbody].
Qed.

(** C5. The line of a transfer reaches the log exactly when a transfer
    without [Range] header has opened its file and its copy has ended
    without an error: with a [Range] header the log is left alone; when
    the copy ends with an error, as it does when the client leaves before
    the file is through, the handler returns with the response as the
    copy left it and the log as it was; when it ends without one, which
    it does when the file reads well and the client stays, the whole file
    is in the response and one line is added to the log. *)
Theorem transfer_report_iff_copy_completes (fuel : nat) (ns : Z) (r : Request)
  (path : string) (fi : FileInfo) (st : world) :
  (range r <> "" ->
   exists st', serveFile fuel ns r path fi st = Ok st' /\ stdout st' = stdout st)
  /\ (range r = "" -> Open fs path = None ->
      exists st', serveFile fuel ns r path fi st = Ok st' /\ stdout st' = stdout st)
  /\ (range r = "" ->
      forall f, Open fs path = Some f -> enough fuel f ->
      exists n err w' f',
        CopyBuffer fuel (file_header TypeByExtension path fi (resp st)) f 0
        = Ok ((n, err), w', f')
        /\ (err = None ->
            exists size,
              serveFile fuel ns r path fi st
              = Ok (mkWorld w'
                      (stdout st
                       ++ [TransferLine (Name fi) size
                             (nonzero_elapsed (Seconds ns))
                             (mb_rate n (nonzero_elapsed (Seconds ns)))]))
              /\ forall data fault, f = FileHandle data fault 0 ->
                   body w' = body (resp st) ++ data)
        /\ (err <> None ->
            serveFile fuel ns r path fi st = Ok (mkWorld w' (stdout st))))
  /\ (range r = "" ->
      forall data fault room,
        Open fs path = Some (FileHandle data fault 0) ->
        (length data < fuel)%nat ->
        link (resp st) = Some room -> 0 <= room < Z.of_nat (length data) ->
        exists w', serveFile fuel ns r path fi st = Ok (mkWorld w' (stdout st)))
  /\ (range r = "" ->
      forall data,
        Open fs path = Some (FileHandle data None 0) ->
        (length data < fuel)%nat ->
        Size fi = Z.of_nat (length data) -> Size fi <= max_int64 ->
        wroteHeader (resp st) = false -> written (resp st) = 0 ->
        link (resp st) = None ->
        exists w' size,
          serveFile fuel ns r path fi st
          = Ok (mkWorld w'
                  (stdout st
                   ++ [TransferLine (Name fi) size
                         (nonzero_elapsed (Seconds ns))
                         (mb_rate (Size fi) (nonzero_elapsed (Seconds ns)))]))
          /\ body w' = body (resp st) ++ data).
Proof.
  split; [apply serve_range|].
  split.
  { intros Hr Ho. eexists. split; [now apply serve_full_unopened|reflexivity]. }
  split.
  { intros Hr f Ho Hfuel.
    destruct (serve_full_run fuel ns r path fi st f Hr Ho Hfuel)
      as [n [err [w' [f' [Hrun [_ [_ [Hnil Herr]]]]]]]].
    exists n, err, w', f'. split; [exact Hrun|]. split; [|exact Herr].
    intros ->. destruct (Hnil eq_refl) as [size [_ Hserve]].
    exists size. split; [exact Hserve|].
    intros data fault ->.
    apply CopyBuffer_nil_complete in Hrun. now rewrite drop_0 in Hrun. }
  split.
  { intros Hr data fault room. now apply serve_full_broken. }
  intros Hr data. now apply serve_full_healthy.
Qed.



End FileTheorems.

(** ** Cleaning twice, joining onto a cleaned path *)

Module CleanFacts.
Import Path PathFacts.

Lemma proper_dotdot_absurd : ~ proper "..".
Proof. intros [_ H]. now apply H. Qed.

Lemma settled_nil : settled [].
Proof. exact (settled_dots 0). Qed.

Lemma settled_top (top : string) (st : list string) :
  settled (top :: st) -> top <> ".." -> proper top /\ settled st.
Proof.
  intros H Htop. inversion H as [k Hk|e st' He Hst]; subst.
  - destruct k; [discriminate|]. simpl in Hk. injection Hk as <- _. congruence.
  - now split.
Qed.

Lemma settled_dots_only (st : list string) :
  settled st -> can_backtrack st = false -> exists k, st = repeat ".." k.
Proof.
  intros H Hcb. inversion H as [k Hk|e st' He Hst]; subst.
  - now exists k.
  - simpl in Hcb. apply negb_false_iff, String.eqb_eq in Hcb. subst e.
    now apply proper_dotdot_absurd in He.
Qed.

Lemma clean_step_settled (r : bool) (st : list string) (e : string) :
  settled st -> sepfree e -> settled (clean_step r st e).
Proof.
  intros Hst He. unfold clean_step.
  destruct (String.eqb_spec e ""); [exact Hst|].
  destruct (String.eqb_spec e "."); [exact Hst|].
  destruct (String.eqb_spec e "..").
  - destruct (can_backtrack st) eqn:Hcb.
    + destruct st as [|top st']; [discriminate|]. simpl in *.
      apply negb_true_iff, String.eqb_neq in Hcb.
      now apply settled_top in Hst as [_ ?].
    + destruct r; simpl; [exact Hst|].
      destruct (settled_dots_only st Hst Hcb) as [k ->].
      exact (settled_dots (S k)).
  - apply settled_push; [|exact Hst]. repeat split; assumption.
Qed.

Lemma fold_clean_settled (r : bool) (es st : list string) :
  Forall sepfree es -> settled st -> settled (fold_left (clean_step r) es st).
Proof.
  revert st. induction es as [|e es IH]; intros st Hes Hst; simpl; [exact Hst|].
  pose proof (Forall_inv Hes). pose proof (Forall_inv_tail Hes).
  apply IH; [assumption|]. now apply clean_step_settled.
Qed.

Lemma fold_dots (k j : nat) :
  fold_left (clean_step false) (repeat ".." k) (repeat ".." j)
  = repeat ".." (k + j).
Proof.
  revert j. induction k as [|k IH]; intros j; simpl; [reflexivity|].
  assert (clean_step false (repeat ".." j) ".." = repeat ".." (S j)) as ->.
  { unfold clean_step. simpl. destruct j; reflexivity. }
  rewrite IH. replace (k + S j)%nat with (S (k + j)) by lia. reflexivity.
Qed.

Lemma rev_repeat {A : Type} (x : A) (k : nat) : rev (repeat x k) = repeat x k.
Proof.
  induction k as [|k IH]; [reflexivity|]. simpl. rewrite IH.
  clear IH. induction k as [|k IH]; [reflexivity|]. simpl. now rewrite IH.
Qed.

(** A settled stack is what cleaning its own elements builds again. *)
Lemma replay (r : bool) (st : list string) :
  settled st -> (r = true -> Forall proper st) ->
  fold_left (clean_step r) (rev st) [] = st.
Proof.
  intros H. induction H as [k|e st He Hst IH]; intros Hr.
  - rewrite rev_repeat. destruct r.
    + specialize (Hr eq_refl). destruct k; [reflexivity|].
      apply Forall_inv in Hr. now apply proper_dotdot_absurd in Hr.
    + change (@nil string) with (repeat ".." 0) at 1.
      rewrite fold_dots. now rewrite Nat.add_0_r.
  - simpl rev. rewrite fold_left_app. simpl.
    rewrite IH by (intros E; exact (Forall_inv_tail (Hr E))).
    now apply clean_step_push.
Qed.

Lemma fold_skip_empty (r : bool) (es st : list string) :
  fold_left (clean_step r) ("" :: es) st = fold_left (clean_step r) es st.
Proof. reflexivity. Qed.

(** Cleaning the text of a cleaned path reads its elements back. *)
Lemma fold_split_render (r : bool) (S st : list string) :
  Forall good S ->
  fold_left (clean_step r) (split (render r S)) st
  = fold_left (clean_step r) S st.
Proof.
  intros H. destruct r.
  - rewrite render_rooted. destruct S as [|e S]; [reflexivity|].
    change ("/" +:+ join_sep (e :: S)) with ("" +:+ "/" +:+ join_sep (e :: S)).
    rewrite split_app_sep, split_join;
      [reflexivity|discriminate|now apply good_all_sepfree].
  - destruct S as [|e S]; [reflexivity|].
    rewrite render_relative by apply (Forall_inv H).
    rewrite split_join; [reflexivity|discriminate|now apply good_all_sepfree].
Qed.

Lemma stack_settled (r : bool) (p : string) :
  settled (fold_left (clean_step r) (split p) []).
Proof. apply fold_clean_settled; [apply split_sepfree|apply settled_nil]. Qed.

Lemma stack_proper (p : string) :
  Forall proper (fold_left (clean_step true) (split p) []).
Proof. apply fold_clean_proper; [apply split_sepfree|constructor]. Qed.

(** What [Clean] has built from [p] is built again from [Clean p]. *)
Lemma clean_stack_again (p : string) :
  p <> "" ->
  fold_left (clean_step (is_rooted p)) (split (Clean p)) []
  = fold_left (clean_step (is_rooted p)) (split p) [].
Proof.
  intros Hp. rewrite (Clean_nonempty_path p Hp).
  rewrite fold_split_render by apply clean_elems_good.
  unfold clean_elems. apply replay; [apply stack_settled|].
  intros E. rewrite E. apply stack_proper.
Qed.

Lemma Clean_idempotent (p : string) : Clean (Clean p) = Clean p.
Proof.
  destruct (String.eqb_spec p "") as [->|Hp]; [reflexivity|].
  rewrite (Clean_nonempty_path (Clean p)) by apply Clean_nonempty.
  rewrite is_rooted_Clean. unfold clean_elems.
  rewrite clean_stack_again by exact Hp.
  symmetry. now apply Clean_nonempty_path.
Qed.




End CleanFacts.

(** ** The listing of a directory *)

Module ListingFacts.
Import Http FS HttpFacts.






End ListingFacts.

Section IndexTheorems.
Import Http FS HttpFacts ListingFacts.

Variable TypeByExtension : string -> string.
Variable ServeContent :
  ResponseWriter -> Request -> string -> handle -> ResponseWriter.
Variables (cfg : Config) (fs : filesystem).

Local Abbreviation index := (indexHandler TypeByExtension ServeContent cfg fs).

(** The index handler looks up the resolved path, and answers 404 when
    there is nothing under it. *)
Lemma index_not_found (fuel : nat) (ns : Z) (r : Request) (st : world) :
  Stat fs (resolve (dir cfg) (url_path r)) = None ->
  index fuel ns r st = Ok (mkWorld (NotFound (resp st)) (stdout st)).
Proof. unfold indexHandler, resolve. now intros ->. Qed.


End IndexTheorems.

(** ** The choice of the file of the speed test *)

Module SelectFacts.
Import FS.












End SelectFacts.

Section SelectTheorem.
Import Http FS HttpFacts SelectFacts.

Variable Marshal : SpeedResult -> string.
Variables (cfg : Config) (fs : filesystem).


End SelectTheorem.

(** ** Path resolution *)




(** ** Closed instances on the sample tree *)




(** The statement of C5 for [/clip.mp4] of the sample tree: whole to a
    client that stays, with a line in the log; cut short and without a line
    to a client that leaves after 3 bytes. *)
Lemma transfer_report_iff_copy_completes_witness :
  (exists w' size,
     serveFileFast sample_mime sample_serve_content sample_fs 100 0
                   (mkRequest "/clip.mp4" "" "") "/srv/share/clip.mp4"
                   clip_info (start None)
     = Ok (mkWorld w'
             [TransferLine "clip.mp4" size (nonzero_elapsed (Seconds 0))
                (mb_rate 8 (nonzero_elapsed (Seconds 0)))])
     /\ Http.body w' = Fmt.bytes "abcdefgh")
  /\ (exists w',
        serveFileFast sample_mime sample_serve_content sample_fs 100 0
                      (mkRequest "/clip.mp4" "" "") "/srv/share/clip.mp4"
                      clip_info (start (Some 3))
        = Ok (mkWorld w' [])).
Proof.
  assert (FS.Open sample_fs "/srv/share/clip.mp4"
          = Some (FS.FileHandle (Fmt.bytes "abcdefgh") None 0)) as Ho
    by (vm_compute; reflexivity).
  split.
  - exact (proj2 (proj2 (proj2 (proj2
             (transfer_report_iff_copy_completes sample_mime sample_serve_content
                sample_fs 100 0 (mkRequest "/clip.mp4" "" "")
                "/srv/share/clip.mp4" clip_info (start None)))))
             eq_refl (Fmt.bytes "abcdefgh") Ho ltac:(simpl; lia) eq_refl
             ltac:(unfold max_int64; simpl; lia) eq_refl eq_refl eq_refl).
  - exact (proj1 (proj2 (proj2 (proj2
             (transfer_report_iff_copy_completes sample_mime sample_serve_content
                sample_fs 100 0 (mkRequest "/clip.mp4" "" "")
                "/srv/share/clip.mp4" clip_info (start (Some 3))))))
             eq_refl (Fmt.bytes "abcdefgh") None 3 Ho ltac:(simpl; lia) eq_refl
             ltac:(simpl; lia)).
Defined.

